(** * A shallow embedding of the claim169-core decoding pipeline

    Sources: [src/core/claim169-core/src/lib.rs], [options.rs],
    [pipeline/decompress.rs], [pipeline/cose.rs], [pipeline/claim169.rs],
    [model/enums.rs].  Third-party crates (flate2, brotli, ciborium, coset)
    are kept abstract as Section variables; the repository's own code is
    written out. *)

From Stdlib Require Import ZArith Lia Bool.
From Stdlib Require Import Strings.String Strings.Byte.
From Stdlib Require Import Floats.PrimFloat.
From stdpp Require Import base list gmap strings pretty.

Open Scope Z_scope.
Local Set Warnings "-register-all".
Local Set Warnings "-abstract-large-number".

(* ------------------------------------------------------------------ *)
(** ** Errors and results *)

(** Modelled from the spec: the error type [Claim169Error] (error.rs is not
    part of the sources); its variants follow the spec's error table. *)
Inductive Claim169Error :=
| Base45Decode (msg : string)
| Decompress (msg : string)
| DecompressLimitExceeded (max_bytes : nat)
| CoseParse (msg : string)
| UnsupportedCoseType (msg : string)
| SignatureInvalid (msg : string)
| DecryptionFailed (msg : string)
| CborParse (msg : string)
| CwtParse (msg : string)
| Claim169NotFound
| Claim169Invalid (msg : string)
| UnsupportedAlgorithm (msg : string)
| KeyNotFound
| Expired (ts : Z)
| NotYetValid (ts : Z)
| Crypto (msg : string)
| DecodingConfig (msg : string).

(** Rust's [Result<T, E>]. *)
Inductive result (A E : Type) :=
| Ok (a : A)
| Err (e : E).
Arguments Ok {A E} a.
Arguments Err {A E} e.

(** [crate::error::Result<T>]. *)
Abbreviation Result A := (result A Claim169Error).

(** The [?] operator. *)
Definition bind_result {A B E} (r : result A E) (k : A -> result B E) : result B E :=
  match r with
  | Ok a => k a
  | Err e => Err e
  end.

Notation "'let?' x ':=' r 'in' k" := (bind_result r (fun x => k))
  (at level 200, x name, r at level 100, k at level 200).

Definition bytes := list byte.

(* ------------------------------------------------------------------ *)
(** ** pipeline/decompress.rs *)

(** [DetectedCompression]; the [Brotli] variant exists when the
    [compression-brotli] feature is on. *)
Inductive DetectedCompression :=
| DZlib
| DBrotli
| DNone.

(** One call of [Read::read] on a decoder: [ROk chunk] is [Ok(n)] with the
    [n = length chunk] bytes written to the buffer; [RErr] is an I/O error.
    A decoder is described by the reads it answers, in order; once the list
    is used up the decoder answers [Ok(0)]. *)
Inductive ReadResult :=
| ROk (chunk : bytes)
| RErr (msg : string).

(** The loop shared by [decompress_zlib] and [decompress_brotli]:
    [total_read] is the running total, [output] the bytes kept so far. *)
Fixpoint read_limited (reads : list ReadResult) (max_bytes total_read : nat)
    (output : bytes) : Result bytes :=
  match reads with
  | [] => Ok output
  | RErr msg :: _ => Err (Decompress msg)
  | ROk chunk :: rest =>
      let bytes_read := length chunk in
      if Nat.eqb bytes_read 0 then Ok output
      else
        let total_read' := (total_read + bytes_read)%nat in
        if Nat.ltb max_bytes total_read' then Err (DecompressLimitExceeded max_bytes)
        else read_limited rest max_bytes total_read' (output ++ chunk)
  end.

(** Every byte the decoder hands out before it stops (end of stream, a
    zero-length read or an error). *)
Fixpoint stream_output (reads : list ReadResult) : bytes :=
  match reads with
  | [] => []
  | RErr _ :: _ => []
  | ROk chunk :: rest =>
      match chunk with
      | [] => []
      | _ => chunk ++ stream_output rest
      end
  end.

(** Whether the decoder stops on an error rather than at the end of the
    stream. *)
Fixpoint stream_fails (reads : list ReadResult) : bool :=
  match reads with
  | [] => false
  | RErr _ :: _ => true
  | ROk chunk :: rest =>
      match chunk with
      | [] => false
      | _ => stream_fails rest
      end
  end.

(** [is_valid_cose_prefix]. *)
Definition is_valid_cose_prefix (data : bytes) : bool :=
  match data with
  | [] => false
  | b0 :: rest =>
      if Byte.eqb b0 xd2 || Byte.eqb b0 xd0 then true
      else if Byte.eqb b0 xd8 then
        match rest with
        | b1 :: _ => Byte.eqb b1 x60 || Byte.eqb b1 x61
        | [] => false
        end
      else false
  end.

Section Decompress.
  (** The flate2 and brotli decoders, as the reads they answer on an input. *)
  Variable zlib_reads : bytes -> list ReadResult.
  Variable brotli_reads : bytes -> list ReadResult.
  (** Whether the crate is built with the [compression-brotli] feature. *)
  Variable compression_brotli : bool.

Definition decompress_zlib (input : bytes) (max_bytes : nat) : Result bytes :=
    read_limited (zlib_reads input) max_bytes 0 [].

Definition decompress_brotli (input : bytes) (max_bytes : nat) : Result bytes :=
    read_limited (brotli_reads input) max_bytes 0 [].

  (** [decompress]: auto-detection with a size limit. *)
Definition decompress (input : bytes) (max_bytes : nat)
      : Result (bytes * DetectedCompression) :=
    match input with
    | [] => Ok ([], DNone)
    | b0 :: _ =>
        if Byte.eqb b0 x78 then
          let? decompressed := decompress_zlib input max_bytes in
          Ok (decompressed, DZlib)
        else
          let brotli_attempt :=
            if compression_brotli then
              match decompress_brotli input max_bytes with
              | Ok decompressed =>
                  if is_valid_cose_prefix decompressed
                  then Some (Ok (decompressed, DBrotli)) else None
              | Err (DecompressLimitExceeded m) => Some (Err (DecompressLimitExceeded m))
              | Err _ => None
              end
            else None in
          match brotli_attempt with
          | Some r => r
          | None =>
              if Nat.ltb max_bytes (length input)
              then Err (DecompressLimitExceeded max_bytes)
              else Ok (input, DNone)
          end
    end.
End Decompress.

(** Zero or more non-empty chunks read in a row (a prefix of a decoder's
    reads), and the bytes they carry. *)
Definition all_chunks (pre : list ReadResult) : Prop :=
  Forall (fun r => exists c, r = ROk c /\ c <> []) pre.

Fixpoint chunks_total (pre : list ReadResult) : nat :=
  match pre with
  | [] => 0%nat
  | ROk c :: rest => (length c + chunks_total rest)%nat
  | RErr _ :: rest => chunks_total rest
  end.

(** Whether the brotli attempt of [decompress] is kept: the decoder ends
    without error and its output starts like a tagged COSE message. *)
Definition brotli_accepted (brotli_reads : bytes -> list ReadResult) (input : bytes) : bool :=
  negb (stream_fails (brotli_reads input))
  && is_valid_cose_prefix (stream_output (brotli_reads input)).

(** The size the guard of [decompress] measures: the output of the
    decompressor the input is committed to, or the input itself where it is
    kept raw.  [exceeds_limit] says that this size is above [max_bytes]. *)
Definition exceeds_limit (zlib_reads brotli_reads : bytes -> list ReadResult)
    (compression_brotli : bool) (input : bytes) (max_bytes : nat) : Prop :=
  match input with
  | [] => False
  | b0 :: _ =>
      if Byte.eqb b0 x78 then (max_bytes < length (stream_output (zlib_reads input)))%nat
      else (compression_brotli = true
            /\ (max_bytes < length (stream_output (brotli_reads input)))%nat)
           \/ (~ (compression_brotli = true /\ brotli_accepted brotli_reads input = true)
               /\ (max_bytes < length input)%nat)
  end.


(* ------------------------------------------------------------------ *)
(** ** CBOR values ([ciborium::Value]) *)

(** [ciborium::Value].  [Integer] carries the CBOR integer range
    [-2^64, 2^64 - 1]; tags are [u64]. *)
Inductive Value :=
| Integer (i : Z)
| Bytes (b : bytes)
| Float (f : float)
| Text (s : string)
| Bool (b : bool)
| Null
| Tag (tag : Z) (v : Value)
| Array (items : list Value)
| Map (entries : list (Value * Value)).

(** [i64::try_from(i128::from(i))] succeeds. *)
Definition in_i64 (i : Z) : bool := (- 2 ^ 63 <=? i) && (i <? 2 ^ 63).

(** [x as i64] on an [i128]: keep the low 64 bits, two's complement. *)
Definition wrap_i64 (i : Z) : Z := (i + 2 ^ 63) mod 2 ^ 64 - 2 ^ 63.

(* ------------------------------------------------------------------ *)
(** ** COSE structures ([coset]) and the crypto traits *)

(** [coset::Algorithm]: a registered IANA value, a private-use value or a
    text label. *)
Inductive CoseAlgorithm :=
| Assigned (a : Z)
| PrivateUse (a : Z)
| AlgText (s : string).

(** [coset::Label]. *)
Inductive Label :=
| LInt (i : Z)
| LText (s : string).

(** [coset::Header], with the fields the crate reads. *)
Module Header.
Record t := mk {
    alg : option CoseAlgorithm;
    key_id : bytes;
    iv : bytes;
    rest : list (Label * Value)
  }.
Definition default : t := mk None [] [] [].
End Header.

(** [coset::ProtectedHeader]: the header and the bytes it was read from. *)
Module ProtectedHeader.
Record t := mk {
    original_data : option bytes;
    header : Header.t
  }.
End ProtectedHeader.

Module CoseSign1.
Record t := mk {
    protected : ProtectedHeader.t;
    unprotected : Header.t;
    payload : option bytes;
    signature : bytes
  }.
Definition TAG : Z := 18.
End CoseSign1.

Module CoseEncrypt0.
Record t := mk {
    protected : ProtectedHeader.t;
    unprotected : Header.t;
    ciphertext : option bytes
  }.
Definition TAG : Z := 16.
End CoseEncrypt0.

(** Modelled from the spec: [CryptoError] (error.rs is not part of the
    sources); the verifier contract distinguishes [VerificationFailed]
    from every other failure. *)
Inductive CryptoError :=
| VerificationFailed
| CDecryptionFailed (msg : string)
| CKeyNotFound
| CUnsupportedAlgorithm (msg : string)
| COther (msg : string).

Abbreviation CryptoResult A := (result A CryptoError).

(** [SignatureVerifier::verify(algorithm, key_id, data, signature)]. *)
Definition SignatureVerifier := Z -> option bytes -> bytes -> bytes -> CryptoResult unit.

(** [Decryptor::decrypt(algorithm, key_id, nonce, aad, ciphertext)]. *)
Definition Decryptor := Z -> option bytes -> bytes -> bytes -> bytes -> CryptoResult bytes.

(** [KeyResolver]: [resolve_verifier] and [resolve_decryptor]. *)
Record KeyResolver := {
  resolve_verifier : option bytes -> Z -> CryptoResult SignatureVerifier;
  resolve_decryptor : option bytes -> Z -> CryptoResult Decryptor
}.

(** [VerificationStatus]. *)
Inductive VerificationStatus :=
| Verified
| Failed
| Skipped.

Definition VerificationStatus_eqb (a b : VerificationStatus) : bool :=
  match a, b with
  | Verified, Verified | Failed, Failed | Skipped, Skipped => true
  | _, _ => false
  end.

(** [CertHashAlgorithm], [CertificateHash], [X509Headers] (model/x509.rs). *)
Inductive CertHashAlgorithm :=
| Numeric (n : Z)
| Named (s : string).

Record CertificateHash := {
  algorithm : CertHashAlgorithm;
  hash_value : bytes
}.

Record X509Headers := mkX509 {
  x5bag : option (list bytes);
  x5chain : option (list bytes);
  x5t : option CertificateHash;
  x5u : option string
}.

Definition X509Headers_default : X509Headers := mkX509 None None None None.

(** [CoseResult]. *)
Record CoseResult := mkCoseResult {
  payload : bytes;
  verification_status : VerificationStatus;
  algorithm_of : option Z;
  key_id : option bytes;
  x509_headers : X509Headers
}.

(* ------------------------------------------------------------------ *)
(** ** pipeline/cose.rs: header extraction *)

(** [get_algorithm]: only a registered algorithm counts. *)
Definition get_algorithm (header : Header.t) : option Z :=
  match Header.alg header with
  | Some (Assigned a) => Some a
  | _ => None
  end.

(** [get_key_id]: protected first, then unprotected. *)
Definition get_key_id (protected unprotected : Header.t) : option bytes :=
  match Header.key_id protected with
  | [] => match Header.key_id unprotected with
          | [] => None
          | k => Some k
          end
  | k => Some k
  end.

(** [parse_x509_certs]. *)
Definition parse_x509_certs (value : Value) : option (list bytes) :=
  match value with
  | Bytes cert => Some [cert]
  | Array certs =>
      let result := omap (fun v => match v with Bytes cert => Some cert | _ => None end) certs in
      match result with
      | [] => None
      | _ => Some result
      end
  | _ => None
  end.

(** [parse_cert_hash]. *)
Definition parse_cert_hash (value : Value) : option CertificateHash :=
  match value with
  | Array (a0 :: a1 :: _) =>
      let alg := match a0 with
                 | Integer i => Some (Numeric (wrap_i64 i))
                 | Text s => Some (Named s)
                 | _ => None
                 end in
      let hash := match a1 with Bytes h => Some h | _ => None end in
      match alg, hash with
      | Some alg, Some hash => Some {| algorithm := alg; hash_value := hash |}
      | _, _ => None
      end
  | _ => None
  end.

(** One [(label, value)] entry of [get_x509_headers]'s loop: the first
    value seen for a label wins. *)
Definition x509_step (headers : X509Headers) (entry : Label * Value) : X509Headers :=
  let '(label, value) := entry in
  match label with
  | LInt 32 => match x5bag headers with
               | None => mkX509 (parse_x509_certs value) (x5chain headers) (x5t headers) (x5u headers)
               | Some _ => headers
               end
  | LInt 33 => match x5chain headers with
               | None => mkX509 (x5bag headers) (parse_x509_certs value) (x5t headers) (x5u headers)
               | Some _ => headers
               end
  | LInt 34 => match x5t headers with
               | None => mkX509 (x5bag headers) (x5chain headers) (parse_cert_hash value) (x5u headers)
               | Some _ => headers
               end
  | LInt 35 => match x5u headers, value with
               | None, Text uri => mkX509 (x5bag headers) (x5chain headers) (x5t headers) (Some uri)
               | _, _ => headers
               end
  | _ => headers
  end.

(** [get_x509_headers]: protected entries first, then unprotected. *)
Definition get_x509_headers (protected unprotected : Header.t) : X509Headers :=
  fold_left x509_step (Header.rest protected ++ Header.rest unprotected) X509Headers_default.

(* ------------------------------------------------------------------ *)
(** ** pipeline/cose.rs: parsing and processing *)

Section Cose.
  (** ciborium's decoder and encoder. *)
  Variable cbor_decode : bytes -> option Value.
  Variable cbor_encode : Value -> bytes.
  (** coset's [Header::from_cbor_value]. *)
  Variable header_of_value : Value -> option Header.t.
  (** coset's [CoseSign1::tbs_data(&[])]: the encoded [Sig_structure]. *)
  Variable tbs_data : CoseSign1.t -> bytes.
  (** [impl From<CryptoError> for Claim169Error] and [CryptoError]'s
      [to_string]. *)
  Variable crypto_into : CryptoError -> Claim169Error.
  Variable crypto_to_string : CryptoError -> string.

  (** coset's [ProtectedHeader::from_cbor_bstr]. *)
Definition protected_from_bstr (v : Value) : option ProtectedHeader.t :=
    match v with
    | Bytes [] => Some (ProtectedHeader.mk (Some []) Header.default)
    | Bytes data =>
        hv ← cbor_decode data;
        h ← header_of_value hv;
        Some (ProtectedHeader.mk (Some data) h)
    | _ => None
    end.

  (** coset's [CoseSign1::from_cbor_value]: [[protected, unprotected,
      payload / nil, signature]]. *)
Definition sign1_from_value (v : Value) : option CoseSign1.t :=
    match v with
    | Array [p; u; pl; Bytes sig] =>
        payload ← match pl with
                  | Bytes b => Some (Some b)
                  | Null => Some None
                  | _ => None
                  end;
        unprotected ← header_of_value u;
        protected ← protected_from_bstr p;
        Some (CoseSign1.mk protected unprotected payload sig)
    | _ => None
    end.

  (** coset's [CoseEncrypt0::from_cbor_value]: [[protected, unprotected,
      ciphertext / nil]]. *)
Definition encrypt0_from_value (v : Value) : option CoseEncrypt0.t :=
    match v with
    | Array [p; u; ct] =>
        ciphertext ← match ct with
                     | Bytes b => Some (Some b)
                     | Null => Some None
                     | _ => None
                     end;
        unprotected ← header_of_value u;
        protected ← protected_from_bstr p;
        Some (CoseEncrypt0.mk protected unprotected ciphertext)
    | _ => None
    end.

  (** [TaggedCborSerializable::from_tagged_cbor_value]: the tag must be
      present and be the structure's own. *)
Definition from_tagged_value {A} (tag : Z) (of_value : Value -> option A) (v : Value)
      : option A :=
    match v with
    | Tag t inner => if Z.eqb t tag then of_value inner else None
    | _ => None
    end.

Definition sign1_from_tagged_slice (data : bytes) : option CoseSign1.t :=
    cbor_decode data ≫= from_tagged_value CoseSign1.TAG sign1_from_value.
Definition sign1_from_slice (data : bytes) : option CoseSign1.t :=
    cbor_decode data ≫= sign1_from_value.
Definition encrypt0_from_tagged_slice (data : bytes) : option CoseEncrypt0.t :=
    cbor_decode data ≫= from_tagged_value CoseEncrypt0.TAG encrypt0_from_value.
Definition encrypt0_from_slice (data : bytes) : option CoseEncrypt0.t :=
    cbor_decode data ≫= encrypt0_from_value.

  (** [Option::ok_or_else(|| err)]. *)
Definition ok_or {A} (o : option A) (err : Claim169Error) : Result A :=
    match o with
    | Some a => Ok a
    | None => Err err
    end.

  (** [build_encrypt0_aad]: [["Encrypt0", protected, h'']]. *)
Definition build_encrypt0_aad (protected_bytes : bytes) : bytes :=
    cbor_encode (Array [Text "Encrypt0"%string; Bytes protected_bytes; Bytes []]).

Definition sign1_protected (s : CoseSign1.t) : Header.t :=
    ProtectedHeader.header (CoseSign1.protected s).
Definition encrypt0_protected (e : CoseEncrypt0.t) : Header.t :=
    ProtectedHeader.header (CoseEncrypt0.protected e).

  (** The IV of an Encrypt0, unprotected header first (inline in
      [process_encrypt0] and [process_encrypt0_with_resolver]). *)
Definition select_nonce (encrypt0 : CoseEncrypt0.t) : Result bytes :=
    match Header.iv (CoseEncrypt0.unprotected encrypt0) with
    | [] => match Header.iv (encrypt0_protected encrypt0) with
            | [] => Err (DecryptionFailed "no IV in COSE_Encrypt0"%string)
            | iv => Ok iv
            end
    | iv => Ok iv
    end.

  (** [process_sign1]. *)
Definition process_sign1 (sign1 : CoseSign1.t) (verifier : option SignatureVerifier)
      : Result CoseResult :=
    let algorithm := get_algorithm (sign1_protected sign1) in
    let kid := get_key_id (sign1_protected sign1) (CoseSign1.unprotected sign1) in
    let x509 := get_x509_headers (sign1_protected sign1) (CoseSign1.unprotected sign1) in
    let? payload := ok_or (CoseSign1.payload sign1)
                      (CoseParse "COSE_Sign1 has no payload"%string) in
    let? verification_status :=
      match verifier with
      | Some v =>
          let? alg := ok_or algorithm
            (CoseParse "COSE_Sign1 missing required algorithm in protected header"%string) in
          let sig_structure := tbs_data sign1 in
          match v alg kid sig_structure (CoseSign1.signature sign1) with
          | Ok _ => Ok Verified
          | Err VerificationFailed => Ok Failed
          | Err e => Err (crypto_into e)
          end
      | None => Ok Skipped
      end in
    Ok (mkCoseResult payload verification_status algorithm kid x509).

  (** The inner Sign1 of a decrypted plaintext, tagged or untagged:
      [from_tagged_slice(..).or_else(|_| from_slice(..)).ok()]. *)
Definition inner_sign1 (plaintext : bytes) : option CoseSign1.t :=
    match sign1_from_tagged_slice plaintext with
    | Some s => Some s
    | None => sign1_from_slice plaintext
    end.

  (** The end of [process_encrypt0] and [process_encrypt0_with_resolver]
      once the plaintext is known: a nested Sign1 is handed to [inner]
      (the recursive parse), anything else is returned as is. *)
Definition finish_encrypt0 (inner : Result CoseResult) (plaintext : bytes) (alg : Z)
      (kid : option bytes) (x509 : X509Headers) : Result CoseResult :=
    let is_cose_sign1 :=
      bool_decide (is_Some (sign1_from_tagged_slice plaintext))
      || bool_decide (is_Some (sign1_from_slice plaintext)) in
    if is_cose_sign1 then
      match inner with
      | Ok inner_result => Ok inner_result
      | Err (SignatureInvalid _) =>
          let s := inner_sign1 plaintext in
          let inner_alg := s ≫= fun s => get_algorithm (sign1_protected s) in
          let inner_kid := s ≫= fun s => get_key_id (sign1_protected s) (CoseSign1.unprotected s) in
          let inner_x509 := default X509Headers_default
            (s ≫= fun s => Some (get_x509_headers (sign1_protected s) (CoseSign1.unprotected s))) in
          Ok (mkCoseResult plaintext Failed inner_alg inner_kid inner_x509)
      | Err e => Err e
      end
    else Ok (mkCoseResult plaintext Skipped (Some alg) kid x509).

  (** [process_encrypt0], given the recursive [parse_and_verify]. *)
Definition process_encrypt0_with
      (parse_and_verify : bytes -> option SignatureVerifier -> option Decryptor -> Result CoseResult)
      (encrypt0 : CoseEncrypt0.t) (decryptor : option Decryptor)
      (verifier : option SignatureVerifier) : Result CoseResult :=
    let algorithm := get_algorithm (encrypt0_protected encrypt0) in
    let kid := get_key_id (encrypt0_protected encrypt0) (CoseEncrypt0.unprotected encrypt0) in
    let x509 := get_x509_headers (encrypt0_protected encrypt0) (CoseEncrypt0.unprotected encrypt0) in
    let? decryptor := ok_or decryptor (DecryptionFailed "no decryptor provided"%string) in
    let? nonce := select_nonce encrypt0 in
    let? ciphertext := ok_or (CoseEncrypt0.ciphertext encrypt0)
                         (DecryptionFailed "COSE_Encrypt0 has no ciphertext"%string) in
    let aad := build_encrypt0_aad
                 (default [] (ProtectedHeader.original_data (CoseEncrypt0.protected encrypt0))) in
    let? alg := ok_or algorithm
      (CoseParse "COSE_Encrypt0 missing required algorithm in protected header"%string) in
    let? plaintext :=
      match decryptor alg kid nonce aad ciphertext with
      | Ok p => Ok p
      | Err e => Err (DecryptionFailed (crypto_to_string e))
      end in
    finish_encrypt0 (parse_and_verify plaintext verifier None) plaintext alg kid x509.

  (** [parse_and_verify], unrolled [fuel] times.  An inner call always gets
      [decryptor = None], and [process_encrypt0] stops at once without a
      decryptor, so two levels are all the code can take
      ([parse_and_verify_fuel_stable] below); the fuel-out branch is never
      reached from [parse_and_verify]. *)
Fixpoint parse_and_verify_fuel (fuel : nat) (data : bytes)
      (verifier : option SignatureVerifier) (decryptor : option Decryptor)
      : Result CoseResult :=
    match fuel with
    | O => Err (CoseParse "COSE nesting too deep"%string)
    | S fuel' =>
        match sign1_from_tagged_slice data with
        | Some sign1 => process_sign1 sign1 verifier
        | None =>
        match encrypt0_from_tagged_slice data with
        | Some encrypt0 =>
            process_encrypt0_with (parse_and_verify_fuel fuel') encrypt0 decryptor verifier
        | None =>
        match sign1_from_slice data with
        | Some sign1 => process_sign1 sign1 verifier
        | None =>
        match encrypt0_from_slice data with
        | Some encrypt0 =>
            process_encrypt0_with (parse_and_verify_fuel fuel') encrypt0 decryptor verifier
        | None =>
            Err (CoseParse
              "data is not a valid COSE_Sign1 or COSE_Encrypt0 structure"%string)
        end end end end
    end.

  (** [parse_and_verify]. *)
Definition parse_and_verify (data : bytes) (verifier : option SignatureVerifier)
      (decryptor : option Decryptor) : Result CoseResult :=
    parse_and_verify_fuel 2 data verifier decryptor.

  (** [process_encrypt0]. *)
Definition process_encrypt0 (encrypt0 : CoseEncrypt0.t) (decryptor : option Decryptor)
      (verifier : option SignatureVerifier) : Result CoseResult :=
    process_encrypt0_with parse_and_verify encrypt0 decryptor verifier.

  (** [process_sign1_with_resolver]. *)
Definition process_sign1_with_resolver (sign1 : CoseSign1.t) (resolver : KeyResolver)
      : Result CoseResult :=
    let algorithm := get_algorithm (sign1_protected sign1) in
    let kid := get_key_id (sign1_protected sign1) (CoseSign1.unprotected sign1) in
    let x509 := get_x509_headers (sign1_protected sign1) (CoseSign1.unprotected sign1) in
    let? payload := ok_or (CoseSign1.payload sign1)
                      (CoseParse "COSE_Sign1 has no payload"%string) in
    let? alg := ok_or algorithm
      (CoseParse "COSE_Sign1 missing required algorithm in protected header"%string) in
    let? verifier :=
      match resolve_verifier resolver kid alg with
      | Ok v => Ok v
      | Err e => Err (Crypto (crypto_to_string e))
      end in
    let sig_structure := tbs_data sign1 in
    let? verification_status :=
      match verifier alg kid sig_structure (CoseSign1.signature sign1) with
      | Ok _ => Ok Verified
      | Err VerificationFailed => Ok Failed
      | Err e => Err (crypto_into e)
      end in
    Ok (mkCoseResult payload verification_status algorithm kid x509).

  (** [process_encrypt0_with_resolver], given the recursive
      [parse_with_resolver]. *)
Definition process_encrypt0_with_resolver_with
      (parse_with_resolver : bytes -> KeyResolver -> Result CoseResult)
      (encrypt0 : CoseEncrypt0.t) (resolver : KeyResolver) : Result CoseResult :=
    let algorithm := get_algorithm (encrypt0_protected encrypt0) in
    let kid := get_key_id (encrypt0_protected encrypt0) (CoseEncrypt0.unprotected encrypt0) in
    let x509 := get_x509_headers (encrypt0_protected encrypt0) (CoseEncrypt0.unprotected encrypt0) in
    let? alg := ok_or algorithm
      (CoseParse "COSE_Encrypt0 missing required algorithm in protected header"%string) in
    let? decryptor :=
      match resolve_decryptor resolver kid alg with
      | Ok d => Ok d
      | Err e => Err (Crypto (crypto_to_string e))
      end in
    let? nonce := select_nonce encrypt0 in
    let? ciphertext := ok_or (CoseEncrypt0.ciphertext encrypt0)
                         (DecryptionFailed "COSE_Encrypt0 has no ciphertext"%string) in
    let aad := build_encrypt0_aad
                 (default [] (ProtectedHeader.original_data (CoseEncrypt0.protected encrypt0))) in
    let? plaintext :=
      match decryptor alg kid nonce aad ciphertext with
      | Ok p => Ok p
      | Err e => Err (DecryptionFailed (crypto_to_string e))
      end in
    finish_encrypt0 (parse_with_resolver plaintext resolver) plaintext alg kid x509.

  (** [parse_with_resolver], unrolled [fuel] times (see
      [parse_and_verify_fuel]; here a nested call only happens on a Sign1,
      which never reaches the Encrypt0 branches). *)
Fixpoint parse_with_resolver_fuel (fuel : nat) (data : bytes) (resolver : KeyResolver)
      : Result CoseResult :=
    match fuel with
    | O => Err (CoseParse "COSE nesting too deep"%string)
    | S fuel' =>
        match sign1_from_tagged_slice data with
        | Some sign1 => process_sign1_with_resolver sign1 resolver
        | None =>
        match encrypt0_from_tagged_slice data with
        | Some encrypt0 =>
            process_encrypt0_with_resolver_with (parse_with_resolver_fuel fuel') encrypt0 resolver
        | None =>
        match sign1_from_slice data with
        | Some sign1 => process_sign1_with_resolver sign1 resolver
        | None =>
        match encrypt0_from_slice data with
        | Some encrypt0 =>
            process_encrypt0_with_resolver_with (parse_with_resolver_fuel fuel') encrypt0 resolver
        | None =>
            Err (CoseParse
              "data is not a valid COSE_Sign1 or COSE_Encrypt0 structure"%string)
        end end end end
    end.

Definition parse_with_resolver (data : bytes) (resolver : KeyResolver) : Result CoseResult :=
    parse_with_resolver_fuel 2 data resolver.

  (** [process_encrypt0_with_resolver]. *)
Definition process_encrypt0_with_resolver (encrypt0 : CoseEncrypt0.t) (resolver : KeyResolver)
      : Result CoseResult :=
    process_encrypt0_with_resolver_with parse_with_resolver encrypt0 resolver.
End Cose.

(* ------------------------------------------------------------------ *)
(** ** Claim 169 model ([model/enums.rs], [model/claim169.rs]) *)

Module Gender.
Inductive t := Male | Female | Other.
  (** [TryFrom<i64> for Gender]. *)
Definition try_from (i : Z) : option t :=
    if i =? 1 then Some Male
    else if i =? 2 then Some Female
    else if i =? 3 then Some Other
    else None.
  (** [impl From<Gender> for i64]: the discriminant. *)
Definition to_i64 (g : t) : Z :=
    match g with Male => 1 | Female => 2 | Other => 3 end.
End Gender.

Module MaritalStatus.
Inductive t := Unmarried | Married | Divorced.
Definition try_from (i : Z) : option t :=
    if i =? 1 then Some Unmarried
    else if i =? 2 then Some Married
    else if i =? 3 then Some Divorced
    else None.
  (** [impl From<MaritalStatus> for i64]. *)
Definition to_i64 (m : t) : Z :=
    match m with Unmarried => 1 | Married => 2 | Divorced => 3 end.
End MaritalStatus.

Module PhotoFormat.
Inductive t := Jpeg | Jpeg2000 | Avif | Webp.
Definition try_from (i : Z) : option t :=
    if i =? 1 then Some Jpeg
    else if i =? 2 then Some Jpeg2000
    else if i =? 3 then Some Avif
    else if i =? 4 then Some Webp
    else None.
  (** [impl From<PhotoFormat> for i64]. *)
Definition to_i64 (f : t) : Z :=
    match f with Jpeg => 1 | Jpeg2000 => 2 | Avif => 3 | Webp => 4 end.
End PhotoFormat.

Module BiometricFormat.
Inductive t := Image | Template | Sound | BioHash.
Definition try_from (i : Z) : option t :=
    if i =? 0 then Some Image
    else if i =? 1 then Some Template
    else if i =? 2 then Some Sound
    else if i =? 3 then Some BioHash
    else None.
  (** [impl From<BiometricFormat> for i64]. *)
Definition to_i64 (f : t) : Z :=
    match f with Image => 0 | Template => 1 | Sound => 2 | BioHash => 3 end.
End BiometricFormat.

Module ImageSubFormat.
Inductive t := Png | Jpeg | Jpeg2000 | Avif | Webp | Tiff | Wsq | VendorSpecific (v : Z).
Definition try_from (i : Z) : option t :=
    if i =? 0 then Some Png
    else if i =? 1 then Some Jpeg
    else if i =? 2 then Some Jpeg2000
    else if i =? 3 then Some Avif
    else if i =? 4 then Some Webp
    else if i =? 5 then Some Tiff
    else if i =? 6 then Some Wsq
    else if (100 <=? i) && (i <=? 200) then Some (VendorSpecific i)
    else None.
  (** [impl From<ImageSubFormat> for i64]: a vendor value is returned as
      it is, whatever it is. *)
Definition to_i64 (f : t) : Z :=
    match f with
    | Png => 0 | Jpeg => 1 | Jpeg2000 => 2 | Avif => 3 | Webp => 4 | Tiff => 5 | Wsq => 6
    | VendorSpecific v => v
    end.
End ImageSubFormat.

Module TemplateSubFormat.
Inductive t := Ansi378 | Iso19794_2 | Nist | VendorSpecific (v : Z).
Definition try_from (i : Z) : option t :=
    if i =? 0 then Some Ansi378
    else if i =? 1 then Some Iso19794_2
    else if i =? 2 then Some Nist
    else if (100 <=? i) && (i <=? 200) then Some (VendorSpecific i)
    else None.
  (** [impl From<TemplateSubFormat> for i64]. *)
Definition to_i64 (f : t) : Z :=
    match f with Ansi378 => 0 | Iso19794_2 => 1 | Nist => 2 | VendorSpecific v => v end.
End TemplateSubFormat.

Module SoundSubFormat.
Inductive t := Wav | Mp3.
Definition try_from (i : Z) : option t :=
    if i =? 0 then Some Wav
    else if i =? 1 then Some Mp3
    else None.
  (** [impl From<SoundSubFormat> for i64]. *)
Definition to_i64 (f : t) : Z :=
    match f with Wav => 0 | Mp3 => 1 end.
End SoundSubFormat.

Module BiometricSubFormat.
Inductive t :=
  | Image (f : ImageSubFormat.t)
  | Template (f : TemplateSubFormat.t)
  | Sound (f : SoundSubFormat.t)
  | Raw (v : Z).
  (** [BiometricSubFormat::from_format_and_value]. *)
Definition from_format_and_value (format : BiometricFormat.t) (value : Z) : t :=
    match format with
    | BiometricFormat.Image => default (Raw value) (Image <$> ImageSubFormat.try_from value)
    | BiometricFormat.Template =>
        default (Raw value) (Template <$> TemplateSubFormat.try_from value)
    | BiometricFormat.Sound => default (Raw value) (Sound <$> SoundSubFormat.try_from value)
    | BiometricFormat.BioHash => Raw value
    end.
  (** [BiometricSubFormat::to_value]. *)
Definition to_value (s : t) : Z :=
    match s with
    | Image f => ImageSubFormat.to_i64 f
    | Template f => TemplateSubFormat.to_i64 f
    | Sound f => SoundSubFormat.to_i64 f
    | Raw v => v
    end.
End BiometricSubFormat.

Module Biometric.
Record t := mk {
    data : bytes;
    format : option BiometricFormat.t;
    sub_format : option BiometricSubFormat.t;
    issuer : option string
  }.
End Biometric.

(** [Iterator::filter_map] followed by [collect]. *)
Fixpoint filter_map {A B} (f : A -> option B) (l : list A) : list B :=
  match l with
  | [] => []
  | x :: rest =>
      match f x with
      | Some y => y :: filter_map f rest
      | None => filter_map f rest
      end
  end.

(** The [hex] crate's [decode]: pairs of hex digits, either case; an odd
    length or any other character is an error. *)
Definition hex_val (c : Ascii.ascii) : option nat :=
  let n := Ascii.nat_of_ascii c in
  if (48 <=? n)%nat && (n <=? 57)%nat then Some (n - 48)%nat
  else if (97 <=? n)%nat && (n <=? 102)%nat then Some (n - 87)%nat
  else if (65 <=? n)%nat && (n <=? 70)%nat then Some (n - 55)%nat
  else None.

Fixpoint hex_decode_chars (cs : list Ascii.ascii) : option bytes :=
  match cs with
  | [] => Some []
  | [_] => None
  | hi :: lo :: rest =>
      h ← hex_val hi;
      l ← hex_val lo;
      b ← Byte.of_nat (16 * h + l);
      r ← hex_decode_chars rest;
      Some (b :: r)
  end.

Definition hex_decode (s : string) : option bytes := hex_decode_chars (list_ascii_of_string s).

(** [extract_string], [extract_int], [extract_bytes]. *)
Definition extract_string (val : Value) : option string :=
  match val with
  | Text s => Some s
  | _ => None
  end.

Definition extract_int (val : Value) : option Z :=
  match val with
  | Integer i => if in_i64 i then Some i else None
  | _ => None
  end.

Definition extract_bytes (val : Value) : option bytes :=
  match val with
  | Bytes b => Some b
  | Text s => hex_decode s
  | _ => None
  end.

(** [extract_best_quality_fingers]: the loop pushes each integer item that
    fits a [u8] and is at most 10; an empty result becomes [None]. *)
Definition best_quality_step (result : list Z) (item : Value) : list Z :=
  match item with
  | Integer i =>
      if (0 <=? i) && (i <=? 255) then
        if i <=? 10 then result ++ [i] else result
      else result
  | _ => result
  end.

Definition extract_best_quality_fingers (val : Value) : option (list Z) :=
  match val with
  | Array arr =>
      match fold_left best_quality_step arr [] with
      | [] => None
      | result => Some result
      end
  | _ => None
  end.

(** The four locals of [extract_single_biometric]'s loop. *)
Record BiometricFields := mkBiometricFields {
  bf_data : option bytes;
  bf_format : option BiometricFormat.t;
  bf_sub_format_raw : option Z;
  bf_issuer : option string
}.

(** The loop of [extract_single_biometric]: non-integer keys are skipped
    ([continue]), an integer key outside [i64] ends the whole entry
    ([.ok()?]), keys 0..3 set their local, later keys overwrite. *)
Fixpoint biometric_fields (entries : list (Value * Value)) (st : BiometricFields)
    : option BiometricFields :=
  match entries with
  | [] => Some st
  | (key, val) :: rest =>
      match key with
      | Integer i =>
          if in_i64 i then
            let st' :=
              if i =? 0 then
                mkBiometricFields (extract_bytes val) (bf_format st)
                  (bf_sub_format_raw st) (bf_issuer st)
              else if i =? 1 then
                mkBiometricFields (bf_data st)
                  (extract_int val ≫= BiometricFormat.try_from)
                  (bf_sub_format_raw st) (bf_issuer st)
              else if i =? 2 then
                mkBiometricFields (bf_data st) (bf_format st) (extract_int val) (bf_issuer st)
              else if i =? 3 then
                mkBiometricFields (bf_data st) (bf_format st)
                  (bf_sub_format_raw st) (extract_string val)
              else st in
            biometric_fields rest st'
          else None
      | _ => biometric_fields rest st
      end
  end.

Definition extract_single_biometric (val : Value) : option Biometric.t :=
  match val with
  | Map m =>
      st ← biometric_fields m (mkBiometricFields None None None None);
      data ← bf_data st;
      let sub_format :=
        match bf_format st, bf_sub_format_raw st with
        | Some f, Some raw => Some (BiometricSubFormat.from_format_and_value f raw)
        | _, _ => None
        end in
      Some (Biometric.mk data (bf_format st) sub_format (bf_issuer st))
  | _ => None
  end.

Definition extract_biometrics (val : Value) : option (list Biometric.t) :=
  match val with
  | Map _ => (fun b => [b]) <$> extract_single_biometric val
  | Array arr =>
      match filter_map extract_single_biometric arr with
      | [] => None
      | biometrics => Some biometrics
      end
  | _ => None
  end.

(** [serde_json::Value].  A JSON object is kept as an association list in
    which [insert] replaces the value of a present key (the order of the
    keys plays no part in what follows). *)
Module Json.
Inductive Number := PosOrNegInt (i : Z) | Float (f : float).
Inductive t :=
  | Null
  | Bool (b : bool)
  | Num (n : Number)
  | String (s : string)
  | Array (items : list t)
  | Object (entries : list (string * t)).

Fixpoint insert (k : string) (v : t) (m : list (string * t)) : list (string * t) :=
    match m with
    | [] => [(k, v)]
    | (k', v') :: rest =>
        if String.eqb k k' then (k, v) :: rest else (k', v') :: insert k v rest
    end.
End Json.

(** The [base64] crate's [STANDARD] engine: padded, alphabet [A-Za-z0-9+/]. *)
Definition base64_alphabet : string :=
  "ABCDEFGHIJKLMNOPQRSTUVWXYZabcdefghijklmnopqrstuvwxyz0123456789+/"%string.

Definition b64 (n : nat) : Ascii.ascii :=
  match String.get n base64_alphabet with
  | Some c => c
  | None => Ascii.ascii_of_nat 61
  end.

Definition b64_pad : Ascii.ascii := Ascii.ascii_of_nat 61.

Fixpoint base64_encode_nat (bs : list nat) : list Ascii.ascii :=
  match bs with
  | a :: b :: c :: rest =>
      [b64 (a / 4); b64 (a mod 4 * 16 + b / 16); b64 (b mod 16 * 4 + c / 64); b64 (c mod 64)]
        ++ base64_encode_nat rest
  | [a; b] => [b64 (a / 4); b64 (a mod 4 * 16 + b / 16); b64 (b mod 16 * 4); b64_pad]
  | [a] => [b64 (a / 4); b64 (a mod 4 * 16); b64_pad; b64_pad]
  | [] => []
  end%nat.

Definition base64_encode (b : bytes) : string :=
  string_of_list_ascii (base64_encode_nat (map Byte.to_nat b)).

(** [cbor_to_json]: integers outside [i64], non-finite floats
    ([Number::from_f64]) and tags (the [_] arm) have no JSON form; array
    items and map entries without one are left out, as are map entries
    whose key is neither text nor an integer. *)
Definition json_key (k : Value) : option string :=
  match k with
  | Text s => Some s
  | Integer i => Some (pretty i)
  | _ => None
  end.

Fixpoint cbor_to_json (val : Value) : option Json.t :=
  match val with
  | Integer i => if in_i64 i then Some (Json.Num (Json.PosOrNegInt i)) else None
  | Text s => Some (Json.String s)
  | Bool b => Some (Json.Bool b)
  | Null => Some Json.Null
  | Float f => if PrimFloat.is_finite f then Some (Json.Num (Json.Float f)) else None
  | Bytes b => Some (Json.String (base64_encode b))
  | Array arr =>
      Some (Json.Array
        ((fix items (l : list Value) : list Json.t :=
            match l with
            | [] => []
            | x :: rest =>
                match cbor_to_json x with
                | Some j => j :: items rest
                | None => items rest
                end
            end) arr))
  | Map m =>
      Some (Json.Object
        ((fix entries (l : list (Value * Value)) (json_map : list (string * Json.t))
             : list (string * Json.t) :=
            match l with
            | [] => json_map
            | (k, v) :: rest =>
                match json_key k with
                | None => entries rest json_map
                | Some key_str =>
                    match cbor_to_json v with
                    | Some j => entries rest (Json.insert key_str j json_map)
                    | None => entries rest json_map
                    end
                end
            end) m []))
  | Tag _ _ => None
  end.

Module Claim169.
Record t := mk {
    id : option string;
    version : option string;
    language : option string;
    full_name : option string;
    first_name : option string;
    middle_name : option string;
    last_name : option string;
    date_of_birth : option string;
    gender : option Gender.t;
    address : option string;
    email : option string;
    phone : option string;
    nationality : option string;
    marital_status : option MaritalStatus.t;
    guardian : option string;
    photo : option bytes;
    photo_format : option PhotoFormat.t;
    best_quality_fingers : option (list Z);
    secondary_full_name : option string;
    secondary_language : option string;
    location_code : option string;
    legal_status : option string;
    country_of_issuance : option string;
    right_thumb : option (list Biometric.t);
    right_pointer_finger : option (list Biometric.t);
    right_middle_finger : option (list Biometric.t);
    right_ring_finger : option (list Biometric.t);
    right_little_finger : option (list Biometric.t);
    left_thumb : option (list Biometric.t);
    left_pointer_finger : option (list Biometric.t);
    left_middle_finger : option (list Biometric.t);
    left_ring_finger : option (list Biometric.t);
    left_little_finger : option (list Biometric.t);
    right_iris : option (list Biometric.t);
    left_iris : option (list Biometric.t);
    face : option (list Biometric.t);
    right_palm : option (list Biometric.t);
    left_palm : option (list Biometric.t);
    voice : option (list Biometric.t);
    unknown_fields : gmap Z Json.t
  }.

  (** [Claim169::default()]. *)
Definition default : t :=
    mk None None None None None None None None None None None None None None None
       None None None None None None None None
       None None None None None None None None None None None None None None None None
       ∅.
End Claim169.

(** The arms [1 => claim.id = extract_string(&val)] ... [23 => ...] of
    [transform]: key [k] overwrites its own field, the others stay. *)
Definition set_demographic (claim : Claim169.t) (key_int : Z) (val : Value) : Claim169.t :=
  {|
    Claim169.id := if key_int =? 1 then extract_string val else Claim169.id claim;
    Claim169.version := if key_int =? 2 then extract_string val else Claim169.version claim;
    Claim169.language := if key_int =? 3 then extract_string val else Claim169.language claim;
    Claim169.full_name := if key_int =? 4 then extract_string val else Claim169.full_name claim;
    Claim169.first_name := if key_int =? 5 then extract_string val else Claim169.first_name claim;
    Claim169.middle_name := if key_int =? 6 then extract_string val else Claim169.middle_name claim;
    Claim169.last_name := if key_int =? 7 then extract_string val else Claim169.last_name claim;
    Claim169.date_of_birth := if key_int =? 8 then extract_string val else Claim169.date_of_birth claim;
    Claim169.gender := if key_int =? 9 then extract_int val ≫= Gender.try_from else Claim169.gender claim;
    Claim169.address := if key_int =? 10 then extract_string val else Claim169.address claim;
    Claim169.email := if key_int =? 11 then extract_string val else Claim169.email claim;
    Claim169.phone := if key_int =? 12 then extract_string val else Claim169.phone claim;
    Claim169.nationality := if key_int =? 13 then extract_string val else Claim169.nationality claim;
    Claim169.marital_status := if key_int =? 14 then extract_int val ≫= MaritalStatus.try_from else Claim169.marital_status claim;
    Claim169.guardian := if key_int =? 15 then extract_string val else Claim169.guardian claim;
    Claim169.photo := if key_int =? 16 then extract_bytes val else Claim169.photo claim;
    Claim169.photo_format := if key_int =? 17 then extract_int val ≫= PhotoFormat.try_from else Claim169.photo_format claim;
    Claim169.best_quality_fingers := if key_int =? 18 then extract_best_quality_fingers val else Claim169.best_quality_fingers claim;
    Claim169.secondary_full_name := if key_int =? 19 then extract_string val else Claim169.secondary_full_name claim;
    Claim169.secondary_language := if key_int =? 20 then extract_string val else Claim169.secondary_language claim;
    Claim169.location_code := if key_int =? 21 then extract_string val else Claim169.location_code claim;
    Claim169.legal_status := if key_int =? 22 then extract_string val else Claim169.legal_status claim;
    Claim169.country_of_issuance := if key_int =? 23 then extract_string val else Claim169.country_of_issuance claim;
    Claim169.right_thumb := Claim169.right_thumb claim;
    Claim169.right_pointer_finger := Claim169.right_pointer_finger claim;
    Claim169.right_middle_finger := Claim169.right_middle_finger claim;
    Claim169.right_ring_finger := Claim169.right_ring_finger claim;
    Claim169.right_little_finger := Claim169.right_little_finger claim;
    Claim169.left_thumb := Claim169.left_thumb claim;
    Claim169.left_pointer_finger := Claim169.left_pointer_finger claim;
    Claim169.left_middle_finger := Claim169.left_middle_finger claim;
    Claim169.left_ring_finger := Claim169.left_ring_finger claim;
    Claim169.left_little_finger := Claim169.left_little_finger claim;
    Claim169.right_iris := Claim169.right_iris claim;
    Claim169.left_iris := Claim169.left_iris claim;
    Claim169.face := Claim169.face claim;
    Claim169.right_palm := Claim169.right_palm claim;
    Claim169.left_palm := Claim169.left_palm claim;
    Claim169.voice := Claim169.voice claim;
    Claim169.unknown_fields := Claim169.unknown_fields claim
  |}.

(** The arms [50 if !skip_biometrics => claim.right_thumb =
    extract_biometrics(&val)] ... [65 => claim.voice = ...]. *)
Definition set_biometric (claim : Claim169.t) (key_int : Z) (bio : option (list Biometric.t))
    : Claim169.t :=
  {|
    Claim169.id := Claim169.id claim;
    Claim169.version := Claim169.version claim;
    Claim169.language := Claim169.language claim;
    Claim169.full_name := Claim169.full_name claim;
    Claim169.first_name := Claim169.first_name claim;
    Claim169.middle_name := Claim169.middle_name claim;
    Claim169.last_name := Claim169.last_name claim;
    Claim169.date_of_birth := Claim169.date_of_birth claim;
    Claim169.gender := Claim169.gender claim;
    Claim169.address := Claim169.address claim;
    Claim169.email := Claim169.email claim;
    Claim169.phone := Claim169.phone claim;
    Claim169.nationality := Claim169.nationality claim;
    Claim169.marital_status := Claim169.marital_status claim;
    Claim169.guardian := Claim169.guardian claim;
    Claim169.photo := Claim169.photo claim;
    Claim169.photo_format := Claim169.photo_format claim;
    Claim169.best_quality_fingers := Claim169.best_quality_fingers claim;
    Claim169.secondary_full_name := Claim169.secondary_full_name claim;
    Claim169.secondary_language := Claim169.secondary_language claim;
    Claim169.location_code := Claim169.location_code claim;
    Claim169.legal_status := Claim169.legal_status claim;
    Claim169.country_of_issuance := Claim169.country_of_issuance claim;
    Claim169.right_thumb := if key_int =? 50 then bio else Claim169.right_thumb claim;
    Claim169.right_pointer_finger := if key_int =? 51 then bio else Claim169.right_pointer_finger claim;
    Claim169.right_middle_finger := if key_int =? 52 then bio else Claim169.right_middle_finger claim;
    Claim169.right_ring_finger := if key_int =? 53 then bio else Claim169.right_ring_finger claim;
    Claim169.right_little_finger := if key_int =? 54 then bio else Claim169.right_little_finger claim;
    Claim169.left_thumb := if key_int =? 55 then bio else Claim169.left_thumb claim;
    Claim169.left_pointer_finger := if key_int =? 56 then bio else Claim169.left_pointer_finger claim;
    Claim169.left_middle_finger := if key_int =? 57 then bio else Claim169.left_middle_finger claim;
    Claim169.left_ring_finger := if key_int =? 58 then bio else Claim169.left_ring_finger claim;
    Claim169.left_little_finger := if key_int =? 59 then bio else Claim169.left_little_finger claim;
    Claim169.right_iris := if key_int =? 60 then bio else Claim169.right_iris claim;
    Claim169.left_iris := if key_int =? 61 then bio else Claim169.left_iris claim;
    Claim169.face := if key_int =? 62 then bio else Claim169.face claim;
    Claim169.right_palm := if key_int =? 63 then bio else Claim169.right_palm claim;
    Claim169.left_palm := if key_int =? 64 then bio else Claim169.left_palm claim;
    Claim169.voice := if key_int =? 65 then bio else Claim169.voice claim;
    Claim169.unknown_fields := Claim169.unknown_fields claim
  |}.

Definition set_unknown_fields (claim : Claim169.t) (unknown_fields : gmap Z Json.t)
    : Claim169.t :=
  {|
    Claim169.id := Claim169.id claim;
    Claim169.version := Claim169.version claim;
    Claim169.language := Claim169.language claim;
    Claim169.full_name := Claim169.full_name claim;
    Claim169.first_name := Claim169.first_name claim;
    Claim169.middle_name := Claim169.middle_name claim;
    Claim169.last_name := Claim169.last_name claim;
    Claim169.date_of_birth := Claim169.date_of_birth claim;
    Claim169.gender := Claim169.gender claim;
    Claim169.address := Claim169.address claim;
    Claim169.email := Claim169.email claim;
    Claim169.phone := Claim169.phone claim;
    Claim169.nationality := Claim169.nationality claim;
    Claim169.marital_status := Claim169.marital_status claim;
    Claim169.guardian := Claim169.guardian claim;
    Claim169.photo := Claim169.photo claim;
    Claim169.photo_format := Claim169.photo_format claim;
    Claim169.best_quality_fingers := Claim169.best_quality_fingers claim;
    Claim169.secondary_full_name := Claim169.secondary_full_name claim;
    Claim169.secondary_language := Claim169.secondary_language claim;
    Claim169.location_code := Claim169.location_code claim;
    Claim169.legal_status := Claim169.legal_status claim;
    Claim169.country_of_issuance := Claim169.country_of_issuance claim;
    Claim169.right_thumb := Claim169.right_thumb claim;
    Claim169.right_pointer_finger := Claim169.right_pointer_finger claim;
    Claim169.right_middle_finger := Claim169.right_middle_finger claim;
    Claim169.right_ring_finger := Claim169.right_ring_finger claim;
    Claim169.right_little_finger := Claim169.right_little_finger claim;
    Claim169.left_thumb := Claim169.left_thumb claim;
    Claim169.left_pointer_finger := Claim169.left_pointer_finger claim;
    Claim169.left_middle_finger := Claim169.left_middle_finger claim;
    Claim169.left_ring_finger := Claim169.left_ring_finger claim;
    Claim169.left_little_finger := Claim169.left_little_finger claim;
    Claim169.right_iris := Claim169.right_iris claim;
    Claim169.left_iris := Claim169.left_iris claim;
    Claim169.face := Claim169.face claim;
    Claim169.right_palm := Claim169.right_palm claim;
    Claim169.left_palm := Claim169.left_palm claim;
    Claim169.voice := Claim169.voice claim;
    Claim169.unknown_fields := unknown_fields
  |}.

(** The loop of [pipeline::claim169::transform], with the local
    [unknown_fields] map threaded along ([HashMap::insert] overwrites). *)
Fixpoint transform_entries (skip_biometrics : bool) (entries : list (Value * Value))
    (claim : Claim169.t) (unknown_fields : gmap Z Json.t)
    : Result (Claim169.t * gmap Z Json.t) :=
  match entries with
  | [] => Ok (claim, unknown_fields)
  | (key, val) :: rest =>
      match key with
      | Integer i =>
          if in_i64 i then
            if (1 <=? i) && (i <=? 23) then
              transform_entries skip_biometrics rest (set_demographic claim i val) unknown_fields
            else if (50 <=? i) && (i <=? 65) then
              if skip_biometrics then
                transform_entries skip_biometrics rest claim unknown_fields
              else
                transform_entries skip_biometrics rest
                  (set_biometric claim i (extract_biometrics val)) unknown_fields
            else
              match cbor_to_json val with
              | Some json_val =>
                  transform_entries skip_biometrics rest claim (<[i := json_val]> unknown_fields)
              | None => transform_entries skip_biometrics rest claim unknown_fields
              end
          else
            Err (Claim169Invalid
                   (String.append "claim 169 key "
                      (String.append (pretty i) " is out of valid range")))
      | _ => Err (Claim169Invalid "claim 169 keys must be integers"%string)
      end
  end.

(** [pipeline::claim169::transform]. *)
Definition transform (value : Value) (skip_biometrics : bool) : Result Claim169.t :=
  match value with
  | Map m =>
      let? r := transform_entries skip_biometrics m Claim169.default ∅ in
      Ok (set_unknown_fields (fst r) (snd r))
  | _ => Err (Claim169Invalid "claim 169 is not a CBOR map"%string)
  end.

(* ------------------------------------------------------------------ *)
(** ** The decode orchestrator ([lib.rs], [options.rs]) *)

(** Modelled from the spec: [model::CwtMeta], the CWT claims 1, 2, 4, 5
    and 6 (epoch seconds as [i64]). *)
Record CwtMeta := mkCwtMeta {
  issuer : option string;
  subject : option string;
  expires_at : option Z;
  not_before : option Z;
  issued_at : option Z
}.

(** Modelled from the spec: what [pipeline::cwt_parse] hands back, the
    metadata and the CBOR value under claim key 169. *)
Record CwtResult := mkCwtResult {
  meta : CwtMeta;
  claim_169 : Value
}.

Inductive WarningCode :=
| ExpiringSoon
| UnknownFields
| TimestampValidationSkipped
| BiometricsSkipped.

Record Warning := mkWarning {
  code : WarningCode;
  message : string
}.

Module DecodeOptions.
Record t := mk {
    max_decompressed_bytes : nat;
    skip_biometrics : bool;
    validate_timestamps : bool;
    allow_unverified : bool;
    clock_skew_tolerance_seconds : Z
  }.

  (** [impl Default for DecodeOptions]. *)
Definition default : t := mk 65536 false true false 0.

  (** [with_clock_skew_tolerance]: [seconds.max(0)]. *)
Definition with_clock_skew_tolerance (o : t) (seconds : Z) : t :=
    mk (max_decompressed_bytes o) (skip_biometrics o) (validate_timestamps o)
       (allow_unverified o) (Z.max seconds 0).
  (** [DecodeOptions::new]. *)
Definition new : t := default.

  (** [with_max_decompressed_bytes]. *)
Definition with_max_decompressed_bytes (o : t) (bytes : nat) : t :=
    mk bytes (skip_biometrics o) (validate_timestamps o) (allow_unverified o)
       (clock_skew_tolerance_seconds o).

  (** The builder [skip_biometrics()] (the name is the field's here). *)
Definition set_skip_biometrics (o : t) : t :=
    mk (max_decompressed_bytes o) true (validate_timestamps o) (allow_unverified o)
       (clock_skew_tolerance_seconds o).

  (** [without_timestamp_validation]. *)
Definition without_timestamp_validation (o : t) : t :=
    mk (max_decompressed_bytes o) (skip_biometrics o) false (allow_unverified o)
       (clock_skew_tolerance_seconds o).

  (** [require_verification]. *)
Definition require_verification (o : t) : t :=
    mk (max_decompressed_bytes o) (skip_biometrics o) (validate_timestamps o) false
       (clock_skew_tolerance_seconds o).

  (** The builder [allow_unverified()] (the name is the field's here). *)
Definition set_allow_unverified (o : t) : t :=
    mk (max_decompressed_bytes o) (skip_biometrics o) (validate_timestamps o) true
       (clock_skew_tolerance_seconds o).

  (** [DecodeOptions::strict]. *)
Definition strict : t := mk 32768 false true false 0.

  (** [DecodeOptions::permissive]. *)
Definition permissive : t := mk (1024 * 1024) false false true 300.
End DecodeOptions.

Module DecodeResult.
Record t := mk {
    claim169 : Claim169.t;
    cwt_meta : CwtMeta;
    verification_status : VerificationStatus;
    warnings : list Warning
  }.
End DecodeResult.

(** Step 6 of [decode_internal]: [now > exp + skew] rejects first, then
    [now + skew < nbf]; the [i64] additions wrap as in a release build. *)
Definition check_timestamps (m : CwtMeta) (now skew : Z) : Result unit :=
  let? _u := match expires_at m with
             | Some exp => if now >? wrap_i64 (exp + skew) then Err (Expired exp) else Ok tt
             | None => Ok tt
             end in
  match not_before m with
  | Some nbf => if wrap_i64 (now + skew) <? nbf then Err (NotYetValid nbf) else Ok tt
  | None => Ok tt
  end.

(** The [UnknownFields] message; the keys come in the map's own order
    (a [HashMap] iterates in an unspecified one). *)
Definition unknown_fields_message (unknown_fields : gmap Z Json.t) : string :=
  String.append "Found "
    (String.append (pretty (size unknown_fields))
       (String.append " unknown fields (keys: ["
          (String.append (String.concat ", " (map pretty (map fst (map_to_list unknown_fields))))
             "])"))).

Section Decode.
  (** Modelled from the spec: [pipeline::base45_decode]. *)
  Variable base45_decode : string -> Result bytes.
  Variables (zlib_reads brotli_reads : bytes -> list ReadResult) (compression_brotli : bool).
  Variable cbor_decode : bytes -> option Value.
  Variable cbor_encode : Value -> bytes.
  Variable header_of_value : Value -> option Header.t.
  Variable tbs_data : CoseSign1.t -> bytes.
  Variable crypto_into : CryptoError -> Claim169Error.
  Variable crypto_to_string : CryptoError -> string.
  (** Modelled from the spec: [pipeline::cwt_parse]. *)
  Variable cwt_parse : bytes -> Result CwtResult.

  (** [decode_internal]; [now] is the clock reading in seconds as an
      [i64].  [pipeline::decompress] is used for its bytes only: the
      detected compression is dropped. *)
Definition decode_internal (qr_text : string) (verifier : option SignatureVerifier)
      (decryptor : option Decryptor) (options : DecodeOptions.t) (now : Z)
      : Result DecodeResult.t :=
    let? compressed := base45_decode qr_text in
    let? decompressed := decompress zlib_reads brotli_reads compression_brotli compressed
                           (DecodeOptions.max_decompressed_bytes options) in
    let cose_bytes := fst decompressed in
    let? cose_result := parse_and_verify cbor_decode cbor_encode header_of_value tbs_data
                          crypto_into crypto_to_string cose_bytes verifier decryptor in
    if negb (DecodeOptions.allow_unverified options)
       && VerificationStatus_eqb (verification_status cose_result) Skipped then
      Err (SignatureInvalid "verification required but no verifier provided"%string)
    else if VerificationStatus_eqb (verification_status cose_result) Failed then
      Err (SignatureInvalid "signature verification failed"%string)
    else
      let? cwt_result := cwt_parse (payload cose_result) in
      let? warnings :=
        if DecodeOptions.validate_timestamps options then
          let? _u := check_timestamps (meta cwt_result) now
                       (DecodeOptions.clock_skew_tolerance_seconds options) in
          Ok []
        else
          Ok [mkWarning TimestampValidationSkipped "Timestamp validation was disabled"%string] in
      let? claim169 := transform (claim_169 cwt_result) (DecodeOptions.skip_biometrics options) in
      let warnings :=
        if DecodeOptions.skip_biometrics options then
          warnings ++ [mkWarning BiometricsSkipped "Biometric data was skipped"%string]
        else warnings in
      let warnings :=
        if Nat.eqb (size (Claim169.unknown_fields claim169)) 0 then warnings
        else warnings ++ [mkWarning UnknownFields
                            (unknown_fields_message (Claim169.unknown_fields claim169))] in
      Ok (DecodeResult.mk claim169 (meta cwt_result) (verification_status cose_result) warnings).
End Decode.

(** ** Concrete instances *)

(** A zlib stream whose second chunk carries the running total past the
    limit, followed by a decoder error that is never reached. *)
Definition bomb_reads (input : bytes) : list ReadResult :=
  [ROk (repeat x00 300); ROk (repeat x00 300); RErr "corrupt deflate stream"%string].

(** A toy CBOR layer: [[x01]] is a tagged Sign1 whose protected header
    [[x05]] names EdDSA (-8), [[x07]] an Encrypt0 protected header. *)
Definition toy_cbor_decode (data : bytes) : option Value :=
  match data with
  | [x01] => Some (Tag 18 (Array [Bytes [x05]; Map []; Bytes [x02]; Bytes [x03]]))
  | [x05] => Some (Integer (-8))
  | _ => None
  end.
Definition toy_cbor_encode (v : Value) : bytes := [].
Definition toy_header_of_value (v : Value) : option Header.t :=
  match v with
  | Map [] => Some Header.default
  | Integer a => Some (Header.mk (Some (Assigned a)) [] [] [])
  | _ => None
  end.
Definition toy_tbs_data (s : CoseSign1.t) : bytes := [x04].
Definition toy_crypto_into (e : CryptoError) : Claim169Error :=
  match e with
  | VerificationFailed => SignatureInvalid "verification failed"%string
  | _ => Crypto "crypto error"%string
  end.
Definition toy_crypto_to_string (e : CryptoError) : string := "crypto error"%string.

Definition toy_encrypt0 : CoseEncrypt0.t :=
  CoseEncrypt0.mk (ProtectedHeader.mk (Some [x07]) (Header.mk (Some (Assigned 1)) [] [x09] []))
    Header.default (Some [x0a]).
Definition toy_decryptor : Decryptor := fun _ _ _ _ _ => Ok [x01].
Definition toy_verifier : SignatureVerifier := fun _ _ _ _ => Ok tt.
Definition toy_inner_sign1 : CoseSign1.t :=
  CoseSign1.mk (ProtectedHeader.mk (Some [x05]) (Header.mk (Some (Assigned (-8))) [] [] []))
    Header.default (Some [x02]) [x03].

(** A toy front end: every QR text reads as the raw bytes [[x01]] (not a
    zlib header, so they are kept as they are), and the CWT layer hands
    back fixed metadata and a fixed claim 169 value. *)
Definition toy_base45_decode (qr_text : string) : Result bytes := Ok [x01].
Definition toy_cwt_parse (m : CwtMeta) (claim : Value) (payload : bytes) : Result CwtResult :=
  Ok (mkCwtResult m claim).

Definition toy_decode (m : CwtMeta) (claim : Value) (verifier : option SignatureVerifier)
    (options : DecodeOptions.t) (now : Z) : Result DecodeResult.t :=
  decode_internal toy_base45_decode (fun _ => []) (fun _ => []) false toy_cbor_decode
    toy_cbor_encode toy_header_of_value toy_tbs_data toy_crypto_into toy_crypto_to_string
    (toy_cwt_parse m claim) "toy"%string verifier None options now.

(* ------------------------------------------------------------------ *)
(** ** Reference readings used by the properties *)

(** The spec's reading of [best_quality_fingers]: the integer items in
    [[0, 10]], in their order. *)
Definition finger_in_range_spec (item : Value) : option Z :=
  match item with
  | Integer i => if (0 <=? i) && (i <=? 10) then Some i else None
  | _ => None
  end.

(** A key [transform] accepts: an integer that fits [i64]. *)
Definition key_ok (key : Value) : bool :=
  match key with
  | Integer i => in_i64 i
  | _ => false
  end.

(** The sixteen biometric slots of a [Claim169], keys 50 to 65. *)
Definition biometric_slots (c : Claim169.t) : list (option (list Biometric.t)) :=
  [Claim169.right_thumb c; Claim169.right_pointer_finger c; Claim169.right_middle_finger c;
   Claim169.right_ring_finger c; Claim169.right_little_finger c; Claim169.left_thumb c;
   Claim169.left_pointer_finger c; Claim169.left_middle_finger c; Claim169.left_ring_finger c;
   Claim169.left_little_finger c; Claim169.right_iris c; Claim169.left_iris c; Claim169.face c;
   Claim169.right_palm c; Claim169.left_palm c; Claim169.voice c].

(* ------------------------------------------------------------------ *)
(** ** [Claim169] helpers and the encoder ([model/claim169.rs],
    [pipeline/claim169.rs]) *)

(** [Option::is_some]. *)
Definition is_some {A} (o : option A) : bool :=
  match o with Some _ => true | None => false end.

(** [Claim169::has_biometrics]. *)
Definition has_biometrics (c : Claim169.t) : bool :=
  is_some (Claim169.right_thumb c)
  || is_some (Claim169.right_pointer_finger c)
  || is_some (Claim169.right_middle_finger c)
  || is_some (Claim169.right_ring_finger c)
  || is_some (Claim169.right_little_finger c)
  || is_some (Claim169.left_thumb c)
  || is_some (Claim169.left_pointer_finger c)
  || is_some (Claim169.left_middle_finger c)
  || is_some (Claim169.left_ring_finger c)
  || is_some (Claim169.left_little_finger c)
  || is_some (Claim169.right_iris c)
  || is_some (Claim169.left_iris c)
  || is_some (Claim169.face c)
  || is_some (Claim169.right_palm c)
  || is_some (Claim169.left_palm c)
  || is_some (Claim169.voice c).

(** The closure [count_opt] of [Claim169::biometric_count]. *)
Definition count_opt (opt : option (list Biometric.t)) : nat :=
  match opt with Some v => length v | None => 0%nat end.

(** [Claim169::biometric_count]. *)
Definition biometric_count (c : Claim169.t) : nat :=
  (count_opt (Claim169.right_thumb c)
   + count_opt (Claim169.right_pointer_finger c)
   + count_opt (Claim169.right_middle_finger c)
   + count_opt (Claim169.right_ring_finger c)
   + count_opt (Claim169.right_little_finger c)
   + count_opt (Claim169.left_thumb c)
   + count_opt (Claim169.left_pointer_finger c)
   + count_opt (Claim169.left_middle_finger c)
   + count_opt (Claim169.left_ring_finger c)
   + count_opt (Claim169.left_little_finger c)
   + count_opt (Claim169.right_iris c)
   + count_opt (Claim169.left_iris c)
   + count_opt (Claim169.face c)
   + count_opt (Claim169.right_palm c)
   + count_opt (Claim169.left_palm c)
   + count_opt (Claim169.voice c))%nat.











(** A claim with its sixteen biometric slots emptied. *)
Definition clear_biometrics (c : Claim169.t) : Claim169.t :=
  fold_left (fun c k => set_biometric c k None)
    [50; 51; 52; 53; 54; 55; 56; 57; 58; 59; 60; 61; 62; 63; 64; 65] c.



(** Reading a header entry under one integer label: [f] applied to the
    value of an entry labelled [n], nothing for any other entry. *)
Definition label_sel {A} (n : Z) (f : Value -> option A) (entry : Label * Value) : option A :=
  match fst entry with
  | LInt i => if i =? n then f (snd entry) else None
  | LText _ => None
  end.

(** The first [Some] that [f] gives along a list. *)
Fixpoint first_some {A B} (f : A -> option B) (l : list A) : option B :=
  match l with
  | [] => None
  | x :: rest => match f x with Some y => Some y | None => first_some f rest end
  end.

(** The [if let Value::Text(uri) = value] of the [x5u] arm. *)
Definition uri_of (v : Value) : option string :=
  match v with Text uri => Some uri | _ => None end.

(** The public entry points of [lib.rs]: [decode], [decode_with_verifier]
    and [decode_encrypted] hand their arguments to [decode_internal];
    [decode_with_resolver] goes through [decode_with_resolver_internal],
    which repeats [decode_internal] step by step with
    [pipeline::cose_parse_with_resolver] in place of [cose_parse]. *)
Module Lib.
Section Api.
  Variable base45_decode : string -> Result bytes.
  Variables (zlib_reads brotli_reads : bytes -> list ReadResult) (compression_brotli : bool).
  Variable cbor_decode : bytes -> option Value.
  Variable cbor_encode : Value -> bytes.
  Variable header_of_value : Value -> option Header.t.
  Variable tbs_data : CoseSign1.t -> bytes.
  Variable crypto_into : CryptoError -> Claim169Error.
  Variable crypto_to_string : CryptoError -> string.
  Variable cwt_parse : bytes -> Result CwtResult.

Local Abbreviation decode_internal :=
    (decode_internal base45_decode zlib_reads brotli_reads compression_brotli cbor_decode
       cbor_encode header_of_value tbs_data crypto_into crypto_to_string cwt_parse).

  (** [decode]: no verifier, no decryptor. *)
Definition decode (qr_text : string) (options : DecodeOptions.t) (now : Z)
      : Result DecodeResult.t :=
    decode_internal qr_text None None options now.

  (** [decode_with_verifier]. *)
Definition decode_with_verifier (qr_text : string) (verifier : SignatureVerifier)
      (options : DecodeOptions.t) (now : Z) : Result DecodeResult.t :=
    decode_internal qr_text (Some verifier) None options now.

  (** [decode_encrypted]. *)
Definition decode_encrypted (qr_text : string) (decryptor : Decryptor)
      (verifier : option SignatureVerifier) (options : DecodeOptions.t) (now : Z)
      : Result DecodeResult.t :=
    decode_internal qr_text verifier (Some decryptor) options now.

  (** [decode_with_resolver_internal]; as in [decode_internal], [now] is
      the clock reading. *)
Definition decode_with_resolver_internal (qr_text : string) (resolver : KeyResolver)
      (options : DecodeOptions.t) (now : Z) : Result DecodeResult.t :=
    let? compressed := base45_decode qr_text in
    let? decompressed := decompress zlib_reads brotli_reads compression_brotli compressed
                           (DecodeOptions.max_decompressed_bytes options) in
    let cose_bytes := fst decompressed in
    let? cose_result := parse_with_resolver cbor_decode cbor_encode header_of_value tbs_data
                          crypto_into crypto_to_string cose_bytes resolver in
    if negb (DecodeOptions.allow_unverified options)
       && VerificationStatus_eqb (verification_status cose_result) Skipped then
      Err (SignatureInvalid "verification required but no verifier provided"%string)
    else if VerificationStatus_eqb (verification_status cose_result) Failed then
      Err (SignatureInvalid "signature verification failed"%string)
    else
      let? cwt_result := cwt_parse (payload cose_result) in
      let? warnings :=
        if DecodeOptions.validate_timestamps options then
          let? _u := check_timestamps (meta cwt_result) now
                       (DecodeOptions.clock_skew_tolerance_seconds options) in
          Ok []
        else
          Ok [mkWarning TimestampValidationSkipped "Timestamp validation was disabled"%string] in
      let? claim169 := transform (claim_169 cwt_result) (DecodeOptions.skip_biometrics options) in
      let warnings :=
        if DecodeOptions.skip_biometrics options then
          warnings ++ [mkWarning BiometricsSkipped "Biometric data was skipped"%string]
        else warnings in
      let warnings :=
        if Nat.eqb (size (Claim169.unknown_fields claim169)) 0 then warnings
        else warnings ++ [mkWarning UnknownFields
                            (unknown_fields_message (Claim169.unknown_fields claim169))] in
      Ok (DecodeResult.mk claim169 (meta cwt_result) (verification_status cose_result) warnings).

  (** [decode_with_resolver]. *)
Definition decode_with_resolver (qr_text : string) (resolver : KeyResolver)
      (options : DecodeOptions.t) (now : Z) : Result DecodeResult.t :=
    decode_with_resolver_internal qr_text resolver options now.
End Api.
End Lib.

(** Toy inputs for the entry-point examples: no CWT timestamps, and a
    resolver that hands out [toy_verifier] and no decryptor. *)
Definition toy_meta0 : CwtMeta := mkCwtMeta None None None None None.

Definition toy_resolver : KeyResolver :=
  Build_KeyResolver (fun _ _ => Ok toy_verifier) (fun _ _ => Err (COther "no key"%string)).

(** The [Map] arm of [cbor_to_json], and lookups in its result. *)
(** [serde_json::Map::get] on the object of [cbor_to_json]. *)
Fixpoint json_get (k : string) (o : list (string * Json.t)) : option Json.t :=
  match o with
  | [] => None
  | (k', v) :: rest => if String.eqb k k' then Some v else json_get k rest
  end.

(** The value of the last entry of a CBOR map whose key reads as [k]
    (a text key, or an integer key printed in decimal) and whose value has
    a JSON form. *)
Definition json_last_entry (k : string) (m : list (Value * Value)) : option Json.t :=
  fold_left (fun acc (e : Value * Value) =>
               match json_key (fst e) with
               | Some s => if String.eqb s k then
                             match cbor_to_json (snd e) with Some j => Some j | None => acc end
                           else acc
               | None => acc
               end) m None.

(** The loop that builds the object in the [Map] arm of [cbor_to_json]. *)
Fixpoint json_entries (l : list (Value * Value)) (json_map : list (string * Json.t))
    : list (string * Json.t) :=
  match l with
  | [] => json_map
  | (k, v) :: rest =>
      match json_key k with
      | None => json_entries rest json_map
      | Some key_str =>
          match cbor_to_json v with
          | Some j => json_entries rest (Json.insert key_str j json_map)
          | None => json_entries rest json_map
          end
      end
  end.


(** [Compression]: the encoding modes; [Brotli] and [AdaptiveBrotli] exist
    when the [compression-brotli] feature is on.  A [u32] quality is an [N]
    below [2 ^ 32]. *)
Module Compression.
Inductive t :=
  | Zlib
  | Brotli (quality : N)
  | None
  | Adaptive
  | AdaptiveBrotli (quality : N).
End Compression.

Section Compress.
  (** [compress_zlib] (flate2's [ZlibEncoder] at the default level) and
      [compress_brotli]. *)
  Variable compress_zlib : bytes -> bytes.
  Variable compress_brotli : bytes -> N -> bytes.

  (** [compress]: the adaptive modes keep the compressed form only when it
      is strictly shorter than the input. *)
Definition compress (input : bytes) (mode : Compression.t) : bytes * DetectedCompression :=
    match mode with
    | Compression.Zlib => (compress_zlib input, DZlib)
    | Compression.Brotli quality => (compress_brotli input quality, DBrotli)
    | Compression.None => (input, DNone)
    | Compression.Adaptive =>
        let compressed := compress_zlib input in
        if Nat.ltb (length compressed) (length input) then (compressed, DZlib)
        else (input, DNone)
    | Compression.AdaptiveBrotli quality =>
        let compressed := compress_brotli input quality in
        if Nat.ltb (length compressed) (length input) then (compressed, DBrotli)
        else (input, DNone)
    end.
End Compress.

(** A toy zlib codec for the examples: the "compressed" form is the input
    behind a [0x78] byte, and the decoder hands the rest back in one read. *)
Definition toy_compress_zlib (input : bytes) : bytes := x78 :: input.
Definition toy_zlib_reads (data : bytes) : list ReadResult := [ROk (tail data)].

(** [X509Headers::is_empty] and [X509Headers::has_certificates]
    (model/x509.rs). *)
Definition x509_is_empty (h : X509Headers) : bool :=
  negb (is_some (x5bag h)) && negb (is_some (x5chain h)) && negb (is_some (x5t h))
  && negb (is_some (x5u h)).

Definition has_certificates (h : X509Headers) : bool :=
  is_some (x5bag h) || is_some (x5chain h).

(* ================================================================== *)
(** * Properties *)

(* ------------------------------------------------------------------ *)
(** ** Decompression: the bomb guard *)


Lemma read_limited_cases (reads : list ReadResult) (max_bytes t : nat) (out : bytes) :
  (t <= max_bytes)%nat ->
  ((max_bytes < t + length (stream_output reads))%nat /\
     read_limited reads max_bytes t out = Err (DecompressLimitExceeded max_bytes))
  \/ ((t + length (stream_output reads) <= max_bytes)%nat /\
      ((stream_fails reads = false /\
          read_limited reads max_bytes t out = Ok (out ++ stream_output reads))
       \/ (stream_fails reads = true /\
           exists msg, read_limited reads max_bytes t out = Err (Decompress msg)))).
Proof.
  revert t out.
  induction reads as [|r rest IH]; intros t out Ht; simpl.
  - right. split; [lia|]. left. rewrite app_nil_r. auto.
  - destruct r as [chunk|msg].
    + simpl. destruct chunk as [|b c].
      * simpl. right. split; [lia|]. left. rewrite app_nil_r. auto.
      * cbn [length Nat.eqb].
        destruct (Nat.ltb max_bytes (t + S (length c))) eqn:Hlt.
        -- apply Nat.ltb_lt in Hlt. left. split; [|reflexivity].
           rewrite length_app. simpl. lia.
        -- apply Nat.ltb_ge in Hlt.
           destruct (IH (t + S (length c))%nat (out ++ b :: c) Hlt)
             as [[H1 H2]|[H1 [[H2 H3]|[H2 H3]]]].
           ++ left. split; [|exact H2]. rewrite length_app. simpl in *. lia.
           ++ right. split; [rewrite length_app; simpl in *; lia|].
              left. split; [exact H2|]. rewrite H3, <- app_assoc. reflexivity.
           ++ right. split; [rewrite length_app; simpl in *; lia|].
              right. split; [exact H2|exact H3].
    + simpl. right. split; [lia|]. right. eauto.
Qed.

Lemma read_limited_limit_iff (reads : list ReadResult) (max_bytes : nat) (m : nat) :
  read_limited reads max_bytes 0 [] = Err (DecompressLimitExceeded m) <->
  m = max_bytes /\ (max_bytes < length (stream_output reads))%nat.
Proof.
  destruct (read_limited_cases reads max_bytes 0 [] ltac:(lia))
    as [[H1 H2]|[H1 [[H2 H3]|[H2 [msg H3]]]]]; rewrite ?H2, ?H3.
  - split; [intros E; injection E as <-; lia|intros [-> _]; reflexivity].
  - split; [discriminate|lia].
  - split; [discriminate|lia].
Qed.

Lemma read_limited_ok (reads : list ReadResult) (max_bytes : nat) :
  stream_fails reads = false ->
  (length (stream_output reads) <= max_bytes)%nat ->
  read_limited reads max_bytes 0 [] = Ok (stream_output reads).
Proof.
  intros Hf Hle.
  destruct (read_limited_cases reads max_bytes 0 [] ltac:(lia))
    as [[H1 H2]|[H1 [[H2 H3]|[H2 H3]]]].
  - lia.
  - exact H3.
  - congruence.
Qed.

Lemma read_limited_prefix (pre rest : list ReadResult) (c : bytes) (max_bytes t : nat)
    (out : bytes) :
  all_chunks pre ->
  (t + chunks_total pre <= max_bytes)%nat ->
  (max_bytes < t + chunks_total pre + length c)%nat ->
  read_limited (pre ++ ROk c :: rest) max_bytes t out
  = Err (DecompressLimitExceeded max_bytes).
Proof.
  revert t out.
  induction pre as [|r pre IH]; intros t out Hall Hle Hlt; simpl in *.
  - destruct (Nat.eqb (length c) 0) eqn:E0.
    + apply Nat.eqb_eq in E0. lia.
    + replace (Nat.ltb max_bytes (t + length c)) with true; [reflexivity|].
      symmetry. apply Nat.ltb_lt. lia.
  - inversion Hall as [|x l [c' [-> Hne]] Hall']; subst.
    simpl in *.
    destruct c' as [|b c'']; [congruence|]. cbn [length Nat.eqb] in *.
    replace (Nat.ltb max_bytes (t + S (length c''))) with false
      by (symmetry; apply Nat.ltb_ge; lia).
    apply IH; [exact Hall'|lia|lia].
Qed.


Lemma decompress_limit_iff (zlib_reads brotli_reads : bytes -> list ReadResult)
    (compression_brotli : bool) (input : bytes) (max_bytes m : nat) :
  decompress zlib_reads brotli_reads compression_brotli input max_bytes
    = Err (DecompressLimitExceeded m) <->
  m = max_bytes /\ exceeds_limit zlib_reads brotli_reads compression_brotli input max_bytes.
Proof.
  unfold exceeds_limit, brotli_accepted.
  destruct input as [|b0 tl]; simpl.
  { split; [discriminate|intros [_ []]]. }
  set (input := b0 :: tl).
  destruct (Byte.eqb b0 x78).
  - unfold decompress_zlib.
    destruct (read_limited_cases (zlib_reads input) max_bytes 0 [] ltac:(lia))
      as [[H1 H2]|[H1 [[H2 H3]|[H2 [msg H3]]]]]; rewrite ?H2, ?H3; simpl;
      (split; [intros E; (discriminate E || (injection E as <-; auto))
              |intros [-> HX]; (reflexivity || lia)]).
  - assert (Hraw : (if Nat.ltb max_bytes (S (length tl))
                    then Err (DecompressLimitExceeded max_bytes) else Ok (input, DNone))
                   = Err (DecompressLimitExceeded m) :> Result (bytes * DetectedCompression)
                   <-> m = max_bytes /\ (max_bytes < S (length tl))%nat).
    { destruct (Nat.ltb max_bytes (S (length tl))) eqn:E;
        [apply Nat.ltb_lt in E|apply Nat.ltb_ge in E];
        (split; [intros X; (discriminate X || (injection X as <-; auto))
                |intros [-> HX]; (reflexivity || lia)]). }
    destruct compression_brotli.
    + unfold decompress_brotli.
      destruct (read_limited_cases (brotli_reads input) max_bytes 0 [] ltac:(lia))
        as [[H1 H2]|[H1 [[H2 H3]|[H2 [msg H3]]]]]; rewrite ?H2, ?H3; simpl.
      * split; [intros E; injection E as <-; auto|intros [-> _]; reflexivity].
      * destruct (is_valid_cose_prefix (stream_output (brotli_reads input))) eqn:Hp.
        -- split; [discriminate|]. intros [_ [[_ X]|[X _]]]; [lia|]. exfalso; auto.
        -- rewrite Hraw. split; intros [-> X]; split; auto.
           ++ right. split; [intros [_ Y]; discriminate Y|exact X].
           ++ destruct X as [[_ X]|[_ X]]; [lia|exact X].
      * rewrite Hraw. split; intros [-> X]; split; auto.
        -- right. split; [intros [_ Y]; discriminate Y|exact X].
        -- destruct X as [[_ X]|[_ X]]; [lia|exact X].
    + rewrite Hraw. split; intros [-> X]; split; auto.
      * right. split; [intros [Y _]; discriminate Y|exact X].
      * destruct X as [[Y _]|[_ X]]; [discriminate Y|exact X].
Qed.

Lemma decompress_zlib_input (zlib_reads brotli_reads : bytes -> list ReadResult)
    (compression_brotli : bool) (input : bytes) (max_bytes : nat) (b0 : byte) (tl : bytes) :
  input = b0 :: tl -> Byte.eqb b0 x78 = true ->
  decompress zlib_reads brotli_reads compression_brotli input max_bytes
  = (let? d := decompress_zlib zlib_reads input max_bytes in Ok (d, DZlib)).
Proof. intros -> H. simpl. rewrite H. reflexivity. Qed.

(** C5 — the decompression bomb guard.  [decompress] fails with
    [DecompressLimitExceeded { max_bytes }] exactly when the output of the
    decompressor the input is committed to (or the input itself when it is
    kept raw) has more than [max_bytes] bytes, and the error always carries
    the caller's limit; a zlib stream of exactly [max_bytes] bytes is
    accepted; and the guard trips on the read whose running total first
    passes [max_bytes], whatever the decoder would answer afterwards. *)
Theorem decompress_limit_exact (zlib_reads brotli_reads : bytes -> list ReadResult)
    (compression_brotli : bool) (input : bytes) (max_bytes : nat) :
  (decompress zlib_reads brotli_reads compression_brotli input max_bytes
     = Err (DecompressLimitExceeded max_bytes)
   <-> exceeds_limit zlib_reads brotli_reads compression_brotli input max_bytes)
  /\ (forall m, decompress zlib_reads brotli_reads compression_brotli input max_bytes
                = Err (DecompressLimitExceeded m) -> m = max_bytes)
  /\ (forall b0 tl, input = b0 :: tl -> Byte.eqb b0 x78 = true ->
      stream_fails (zlib_reads input) = false ->
      length (stream_output (zlib_reads input)) = max_bytes ->
      decompress zlib_reads brotli_reads compression_brotli input max_bytes
      = Ok (stream_output (zlib_reads input), DZlib))
  /\ (forall b0 tl pre c rest, input = b0 :: tl -> Byte.eqb b0 x78 = true ->
      zlib_reads input = pre ++ ROk c :: rest ->
      all_chunks pre ->
      (chunks_total pre <= max_bytes)%nat ->
      (max_bytes < chunks_total pre + length c)%nat ->
      decompress zlib_reads brotli_reads compression_brotli input max_bytes
      = Err (DecompressLimitExceeded max_bytes)).
Proof.
  split; [|split; [|split]].
  - rewrite decompress_limit_iff. intuition.
  - intros m H. apply decompress_limit_iff in H. tauto.
  - intros b0 tl Hin H78 Hf Hlen.
    rewrite (decompress_zlib_input _ _ _ _ _ b0 tl Hin H78).
    unfold decompress_zlib. rewrite read_limited_ok by (exact Hf || lia). reflexivity.
  - intros b0 tl pre c rest Hin H78 Hz Hall Hle Hlt.
    rewrite (decompress_zlib_input _ _ _ _ _ b0 tl Hin H78).
    unfold decompress_zlib. rewrite Hz.
    rewrite (read_limited_prefix pre rest c max_bytes 0 []); [reflexivity|exact Hall|lia|lia].
Qed.

(* ------------------------------------------------------------------ *)
(** ** COSE processing *)

Lemma bind_result_ext {A B E} (r : result A E) (k1 k2 : A -> result B E) :
  (forall a, k1 a = k2 a) -> bind_result r k1 = bind_result r k2.
Proof. intros H. destruct r; simpl; auto. Qed.

Section CoseProps.
  Context (cbor_decode : bytes -> option Value) (cbor_encode : Value -> bytes)
          (header_of_value : Value -> option Header.t) (tbs_data : CoseSign1.t -> bytes)
          (crypto_into : CryptoError -> Claim169Error) (crypto_to_string : CryptoError -> string).

Local Abbreviation process_sign1 := (process_sign1 tbs_data crypto_into).
Local Abbreviation process_sign1_with_resolver :=
    (process_sign1_with_resolver tbs_data crypto_into crypto_to_string).
Local Abbreviation parse_and_verify_fuel :=
    (parse_and_verify_fuel cbor_decode cbor_encode header_of_value tbs_data crypto_into
       crypto_to_string).
Local Abbreviation parse_and_verify :=
    (parse_and_verify cbor_decode cbor_encode header_of_value tbs_data crypto_into
       crypto_to_string).
Local Abbreviation process_encrypt0_with :=
    (process_encrypt0_with cbor_decode cbor_encode header_of_value crypto_to_string).
Local Abbreviation process_encrypt0 :=
    (process_encrypt0 cbor_decode cbor_encode header_of_value tbs_data crypto_into
       crypto_to_string).
Local Abbreviation process_encrypt0_with_resolver :=
    (process_encrypt0_with_resolver cbor_decode cbor_encode header_of_value tbs_data
       crypto_into crypto_to_string).
Local Abbreviation inner_sign1 := (inner_sign1 cbor_decode header_of_value).
Local Abbreviation sign1_from_tagged_slice := (sign1_from_tagged_slice cbor_decode header_of_value).
Local Abbreviation sign1_from_slice := (sign1_from_slice cbor_decode header_of_value).

Lemma process_encrypt0_with_ext p1 p2 encrypt0 decryptor verifier :
    (forall data, p1 data verifier None = p2 data verifier None) ->
    process_encrypt0_with p1 encrypt0 decryptor verifier
    = process_encrypt0_with p2 encrypt0 decryptor verifier.
  Proof.
    intros H. unfold process_encrypt0_with. cbv zeta.
    repeat (apply bind_result_ext; intros ?).
    rewrite H. reflexivity.
  Qed.

  (** Without a decryptor an Encrypt0 stops at once, so the inner parse
      needs a single level. *)
Lemma parse_and_verify_fuel_no_decryptor n data verifier :
    parse_and_verify_fuel (S n) data verifier None = parse_and_verify_fuel 1 data verifier None.
  Proof. reflexivity. Qed.

  (** Two levels of unrolling are all the recursion of [parse_and_verify]. *)
Lemma parse_and_verify_fuel_stable n data verifier decryptor :
    parse_and_verify_fuel (S (S n)) data verifier decryptor
    = parse_and_verify data verifier decryptor.
  Proof.
    unfold parse_and_verify. cbn [parse_and_verify_fuel].
    repeat match goal with
           | |- context [match ?x with _ => _ end] => destruct x
           end; try reflexivity;
    apply process_encrypt0_with_ext; intros; apply parse_and_verify_fuel_no_decryptor.
  Qed.

Local Abbreviation build_encrypt0_aad := (build_encrypt0_aad cbor_encode).
Local Abbreviation encrypt0_from_tagged_slice :=
    (encrypt0_from_tagged_slice cbor_decode header_of_value).
Local Abbreviation finish_encrypt0 := (finish_encrypt0 cbor_decode header_of_value).

  (** A plaintext that reads as a Sign1 (tagged or not) is dispatched to
      [process_sign1]: the tagged Encrypt0 attempt in between needs a tag,
      which an untagged Sign1 does not have. *)
Lemma parse_and_verify_fuel_sign1 n data verifier decryptor s :
    inner_sign1 data = Some s ->
    parse_and_verify_fuel (S n) data verifier decryptor = process_sign1 s verifier.
  Proof.
    unfold inner_sign1. cbn [parse_and_verify_fuel].
    destruct (sign1_from_tagged_slice data) as [s'|] eqn:Ht.
    - intros [= ->]. reflexivity.
    - intros Hs. rewrite Hs.
      unfold encrypt0_from_tagged_slice.
      unfold sign1_from_slice in Hs.
      destruct (cbor_decode data) as [v|]; simpl in *; [|discriminate].
      destruct v; try discriminate. reflexivity.
  Qed.

Lemma finish_encrypt0_sign1 r plaintext alg kid x509 s :
    inner_sign1 plaintext = Some s ->
    finish_encrypt0 (Ok r) plaintext alg kid x509 = Ok r.
  Proof.
    unfold finish_encrypt0, inner_sign1. intros H.
    destruct (sign1_from_tagged_slice plaintext) eqn:E1; [reflexivity|].
    rewrite H. reflexivity.
  Qed.

Lemma process_encrypt0_decrypted encrypt0 d verifier alg nonce ct plaintext :
    get_algorithm (encrypt0_protected encrypt0) = Some alg ->
    select_nonce encrypt0 = Ok nonce ->
    CoseEncrypt0.ciphertext encrypt0 = Some ct ->
    d alg (get_key_id (encrypt0_protected encrypt0) (CoseEncrypt0.unprotected encrypt0)) nonce
      (build_encrypt0_aad
         (default [] (ProtectedHeader.original_data (CoseEncrypt0.protected encrypt0)))) ct
      = Ok plaintext ->
    process_encrypt0 encrypt0 (Some d) verifier
    = finish_encrypt0 (parse_and_verify plaintext verifier None) plaintext alg
        (get_key_id (encrypt0_protected encrypt0) (CoseEncrypt0.unprotected encrypt0))
        (get_x509_headers (encrypt0_protected encrypt0) (CoseEncrypt0.unprotected encrypt0)).
  Proof.
    intros Ha Hn Hc Hd.
    unfold process_encrypt0, process_encrypt0_with. cbv zeta.
    rewrite Hn, Hc, Ha. simpl. rewrite Hd. reflexivity.
  Qed.

  (** C2 (amended) — a Sign1 processed with a verifier, given directly or
      through a key resolver, whose protected header carries no registered
      algorithm always ends in a [CoseParse] error and the verifier is never
      asked; the error is the missing-algorithm one when the envelope has a
      payload, and the no-payload one (checked first) when it has none.
      Whatever the unprotected header holds plays no part. *)
Theorem process_sign1_requires_protected_alg (sign1 : CoseSign1.t)
      (v : SignatureVerifier) (resolver : KeyResolver) :
    get_algorithm (sign1_protected sign1) = None ->
    let err := CoseParse (match CoseSign1.payload sign1 with
                          | Some _ => "COSE_Sign1 missing required algorithm in protected header"
                          | None => "COSE_Sign1 has no payload"
                          end) in
    process_sign1 sign1 (Some v) = Err err
    /\ process_sign1_with_resolver sign1 resolver = Err err.
  Proof.
    intros H err. unfold err, process_sign1, process_sign1_with_resolver. cbv zeta.
    rewrite H. destruct (CoseSign1.payload sign1); split; reflexivity.
  Qed.

  (** C4 — an Encrypt0 whose plaintext reads as a COSE_Sign1 (tagged or
      untagged) hands that Sign1 to [process_sign1] with the inner verifier,
      and a successful inner result is what the caller sees: a passing inner
      verifier gives [Verified] with the inner payload, and a verifier that
      answers [VerificationFailed] gives an [Ok] result with status [Failed]
      and the inner algorithm, key id and X.509 headers. *)
Theorem process_encrypt0_nested_sign1 (encrypt0 : CoseEncrypt0.t) (d : Decryptor)
      (verifier : option SignatureVerifier) (alg : Z) (nonce ct plaintext : bytes)
      (s : CoseSign1.t) :
    get_algorithm (encrypt0_protected encrypt0) = Some alg ->
    select_nonce encrypt0 = Ok nonce ->
    CoseEncrypt0.ciphertext encrypt0 = Some ct ->
    d alg (get_key_id (encrypt0_protected encrypt0) (CoseEncrypt0.unprotected encrypt0)) nonce
      (build_encrypt0_aad
         (default [] (ProtectedHeader.original_data (CoseEncrypt0.protected encrypt0)))) ct
      = Ok plaintext ->
    inner_sign1 plaintext = Some s ->
    let kid := get_key_id (sign1_protected s) (CoseSign1.unprotected s) in
    let x509 := get_x509_headers (sign1_protected s) (CoseSign1.unprotected s) in
    (forall r, process_sign1 s verifier = Ok r ->
               process_encrypt0 encrypt0 (Some d) verifier = Ok r)
    /\ (forall v p inner_alg,
          verifier = Some v -> CoseSign1.payload s = Some p ->
          get_algorithm (sign1_protected s) = Some inner_alg ->
          v inner_alg kid (tbs_data s) (CoseSign1.signature s) = Ok tt ->
          process_encrypt0 encrypt0 (Some d) verifier
          = Ok (mkCoseResult p Verified (Some inner_alg) kid x509))
    /\ (forall v p inner_alg,
          verifier = Some v -> CoseSign1.payload s = Some p ->
          get_algorithm (sign1_protected s) = Some inner_alg ->
          v inner_alg kid (tbs_data s) (CoseSign1.signature s) = Err VerificationFailed ->
          process_encrypt0 encrypt0 (Some d) verifier
          = Ok (mkCoseResult p Failed (Some inner_alg) kid x509)).
  Proof.
    intros Ha Hn Hc Hd Hs kid x509.
    assert (Hr : forall r, process_sign1 s verifier = Ok r ->
                           process_encrypt0 encrypt0 (Some d) verifier = Ok r).
    { intros r Hp.
      refine (eq_trans
        (process_encrypt0_decrypted encrypt0 d verifier alg nonce ct plaintext Ha Hn Hc Hd) _).
      unfold parse_and_verify.
      rewrite (parse_and_verify_fuel_sign1 1 plaintext verifier None s Hs), Hp.
      apply (finish_encrypt0_sign1 _ _ _ _ _ s Hs). }
    split; [exact Hr|split].
    - intros v p ia -> Hp Hia Hv. apply Hr.
      unfold process_sign1. cbv zeta. rewrite Hp. simpl. rewrite Hia. simpl.
      unfold kid in Hv. rewrite Hv. reflexivity.
    - intros v p ia -> Hp Hia Hv. apply Hr.
      unfold process_sign1. cbv zeta. rewrite Hp. simpl. rewrite Hia. simpl.
      unfold kid in Hv. rewrite Hv. reflexivity.
  Qed.

  (** C3 (code bug) — an Encrypt0 with no algorithm in its protected
      header is refused with [CoseParse] by the resolver path
      [process_encrypt0_with_resolver], which checks the algorithm first,
      but [process_encrypt0] checks the decryptor, the IV and the
      ciphertext before the algorithm: with no IV in either header it
      reports [DecryptionFailed "no IV in COSE_Encrypt0"], with no
      ciphertext [DecryptionFailed "COSE_Encrypt0 has no ciphertext"], and
      with no decryptor [DecryptionFailed "no decryptor provided"]. *)
Theorem process_encrypt0_missing_alg_no_iv (d : Decryptor)
      (verifier : option SignatureVerifier) (resolver : KeyResolver) :
    let no_alg := ProtectedHeader.mk (Some []) Header.default in
    let no_iv := CoseEncrypt0.mk no_alg Header.default (Some [x01]) in
    let no_ciphertext := CoseEncrypt0.mk no_alg (Header.mk None [] [x09] []) None in
    let complete := CoseEncrypt0.mk no_alg (Header.mk None [] [x09] []) (Some [x01]) in
    process_encrypt0 no_iv (Some d) verifier
      = Err (DecryptionFailed "no IV in COSE_Encrypt0")
    /\ process_encrypt0 no_ciphertext (Some d) verifier
      = Err (DecryptionFailed "COSE_Encrypt0 has no ciphertext")
    /\ process_encrypt0 complete None verifier
      = Err (DecryptionFailed "no decryptor provided")
    /\ process_encrypt0 complete (Some d) verifier
      = Err (CoseParse "COSE_Encrypt0 missing required algorithm in protected header")
    /\ process_encrypt0_with_resolver no_iv resolver
      = Err (CoseParse "COSE_Encrypt0 missing required algorithm in protected header")
    /\ process_encrypt0_with_resolver no_ciphertext resolver
      = Err (CoseParse "COSE_Encrypt0 missing required algorithm in protected header").
  Proof. repeat split. Qed.
End CoseProps.

Lemma decompress_limit_exact_witness :
  decompress bomb_reads (fun _ => []) false [x78; x9c] 500
  = Err (DecompressLimitExceeded 500).
Proof.
  refine (proj2 (proj2 (proj2 (decompress_limit_exact bomb_reads (fun _ => []) false
            [x78; x9c] 500))) x78 [x9c] [ROk (repeat x00 300)] (repeat x00 300)
            [RErr "corrupt deflate stream"%string] eq_refl eq_refl eq_refl _ _ _).
  - repeat econstructor. vm_compute. discriminate.
  - simpl. lia.
  - simpl. lia.
Defined.

Lemma process_encrypt0_nested_sign1_witness :
  process_encrypt0 toy_cbor_decode toy_cbor_encode toy_header_of_value toy_tbs_data
    toy_crypto_into toy_crypto_to_string toy_encrypt0 (Some toy_decryptor) (Some toy_verifier)
  = Ok (mkCoseResult [x02] Verified (Some (-8)) None X509Headers_default).
Proof.
  exact (proj1 (proj2 (process_encrypt0_nested_sign1 toy_cbor_decode toy_cbor_encode
           toy_header_of_value toy_tbs_data toy_crypto_into toy_crypto_to_string
           toy_encrypt0 toy_decryptor (Some toy_verifier) 1 [x09] [x0a] [x01] toy_inner_sign1
           eq_refl eq_refl eq_refl eq_refl eq_refl))
           toy_verifier [x02] (-8) eq_refl eq_refl eq_refl eq_refl).
Defined.

Lemma process_sign1_requires_protected_alg_witness :
  process_sign1 toy_tbs_data toy_crypto_into
    (CoseSign1.mk (ProtectedHeader.mk (Some []) Header.default) Header.default (Some [x02]) [x03])
    (Some toy_verifier)
  = Err (CoseParse "COSE_Sign1 missing required algorithm in protected header"%string).
Proof.
  exact (proj1 (process_sign1_requires_protected_alg toy_tbs_data toy_crypto_into
           toy_crypto_to_string
           (CoseSign1.mk (ProtectedHeader.mk (Some []) Header.default) Header.default
              (Some [x02]) [x03])
           toy_verifier (Build_KeyResolver (fun _ _ => Err (COther "no key"%string)) (fun _ _ => Err (COther "no key"%string)))
           eq_refl)).
Defined.

(** C2 counterexample: a Sign1 without a payload whose algorithm sits only in
    the unprotected header, processed with a verifier, is refused with the
    no-payload error, which does not mention the missing algorithm. *)
Lemma process_sign1_missing_alg_no_payload_cex :
  process_sign1 toy_tbs_data toy_crypto_into
    (CoseSign1.mk (ProtectedHeader.mk (Some []) Header.default)
       (Header.mk (Some (Assigned (-8))) [] [] []) None [x03])
    (Some toy_verifier)
  = Err (CoseParse "COSE_Sign1 has no payload"%string).
Proof. reflexivity. Qed.

Lemma bind_result_Ok {A B E} (m : result A E) (f : A -> result B E) (r : B) :
  bind_result m f = Ok r -> exists x, m = Ok x /\ f x = Ok r.
Proof. destruct m; simpl; [eauto|discriminate]. Qed.

Lemma bind_result_Err {A B E} (m : result A E) (f : A -> result B E) (e : E) :
  bind_result m f = Err e -> m = Err e \/ exists x, m = Ok x /\ f x = Err e.
Proof. destruct m as [a|e']; simpl; [right; eauto|intros [= ->]; left; reflexivity]. Qed.

Lemma wrap_i64_id (x : Z) : in_i64 x = true -> wrap_i64 x = x.
Proof.
  unfold in_i64, wrap_i64. intros H. apply andb_prop in H as [H1 H2].
  apply Z.leb_le in H1. apply Z.ltb_lt in H2.
  rewrite Z.mod_small; lia.
Qed.

Lemma transform_entries_Err skip entries claim unknown_fields e :
  transform_entries skip entries claim unknown_fields = Err e ->
  exists msg, e = Claim169Invalid msg.
Proof.
  revert claim unknown_fields.
  induction entries as [|[key val] rest IH]; intros claim uf H; simpl in H; [discriminate|].
  destruct key; try (injection H as <-; eauto).
  destruct (in_i64 i); [|injection H as <-; eauto].
  repeat match type of H with
         | context [if ?b then _ else _] => destruct b
         | context [match cbor_to_json val with _ => _ end] => destruct (cbor_to_json val)
         end; eauto.
Qed.

Lemma transform_Err v skip e :
  transform v skip = Err e -> exists msg, e = Claim169Invalid msg.
Proof.
  unfold transform. destruct v; try (intros [= <-]; eauto).
  intros H. apply bind_result_Err in H as [H|(x & _ & H)]; [|discriminate].
  eapply transform_entries_Err; exact H.
Qed.

(** Without overflow, step 6 reads as the spec states it. *)
Lemma check_timestamps_no_overflow m now skew :
  in_i64 (now + skew) = true ->
  (forall exp, expires_at m = Some exp -> in_i64 (exp + skew) = true) ->
  check_timestamps m now skew
  = let? _u := match expires_at m with
                | Some exp => if exp <? now - skew then Err (Expired exp) else Ok tt
                | None => Ok tt
                end in
    match not_before m with
    | Some nbf => if now + skew <? nbf then Err (NotYetValid nbf) else Ok tt
    | None => Ok tt
    end.
Proof.
  intros Hn He. unfold check_timestamps.
  rewrite (wrap_i64_id _ Hn).
  destruct (expires_at m) as [exp|]; [|reflexivity].
  rewrite (wrap_i64_id _ (He exp eq_refl)).
  replace (now >? exp + skew) with (exp <? now - skew)
    by (destruct (Z.ltb_spec exp (now - skew)); destruct (Z.gtb_spec now (exp + skew)); lia).
  destruct (exp <? now - skew); reflexivity.
Qed.

Lemma check_timestamps_expired m now skew exp :
  in_i64 (now + skew) = true ->
  (forall exp, expires_at m = Some exp -> in_i64 (exp + skew) = true) ->
  check_timestamps m now skew = Err (Expired exp)
  <-> expires_at m = Some exp /\ exp < now - skew.
Proof.
  intros Hn He. rewrite (check_timestamps_no_overflow m now skew Hn He).
  destruct (expires_at m) as [x|].
  - destruct (Z.ltb_spec x (now - skew)); simpl.
    + split; [intros [= ->]; auto|intros [[= ->] _]; reflexivity].
    + destruct (not_before m) as [nbf|]; [destruct (now + skew <? nbf)|];
        split; try discriminate; intros [[= ->] ?]; lia.
  - simpl. destruct (not_before m) as [nbf|]; [destruct (now + skew <? nbf)|];
      split; try discriminate; intros [? _]; discriminate.
Qed.

Lemma check_timestamps_not_yet_valid m now skew nbf :
  in_i64 (now + skew) = true ->
  (forall exp, expires_at m = Some exp -> in_i64 (exp + skew) = true) ->
  check_timestamps m now skew = Err (NotYetValid nbf)
  <-> (forall exp, expires_at m = Some exp -> now - skew <= exp)
      /\ not_before m = Some nbf /\ now + skew < nbf.
Proof.
  intros Hn He. rewrite (check_timestamps_no_overflow m now skew Hn He).
  assert (Hnbf : match not_before m with
                 | Some y => if now + skew <? y then Err (NotYetValid y) else Ok tt
                 | None => Ok tt
                 end = Err (NotYetValid nbf)
                 <-> not_before m = Some nbf /\ now + skew < nbf).
  { destruct (not_before m) as [y|].
    - destruct (Z.ltb_spec (now + skew) y).
      + split; [intros [= ->]; auto|intros [[= ->] _]; reflexivity].
      + split; [discriminate|intros [[= ->] ?]; lia].
    - split; [discriminate|intros [? _]; discriminate]. }
  destruct (expires_at m) as [x|].
  - destruct (Z.ltb_spec x (now - skew)); simpl.
    + split; [discriminate|intros [Hx _]; specialize (Hx x eq_refl); lia].
    + rewrite Hnbf. split; [intros H'; split; [intros ? [= <-]; lia|exact H']|tauto].
  - simpl. rewrite Hnbf. split; [intros H'; split; [discriminate|exact H']|tauto].
Qed.

Section DecodeProps.
  Context (base45_decode : string -> Result bytes)
          (zlib_reads brotli_reads : bytes -> list ReadResult) (compression_brotli : bool)
          (cbor_decode : bytes -> option Value) (cbor_encode : Value -> bytes)
          (header_of_value : Value -> option Header.t) (tbs_data : CoseSign1.t -> bytes)
          (crypto_into : CryptoError -> Claim169Error)
          (crypto_to_string : CryptoError -> string)
          (cwt_parse : bytes -> Result CwtResult).

Local Abbreviation decode_internal :=
    (decode_internal base45_decode zlib_reads brotli_reads compression_brotli cbor_decode
       cbor_encode header_of_value tbs_data crypto_into crypto_to_string cwt_parse).
Local Abbreviation decompress := (decompress zlib_reads brotli_reads compression_brotli).
Local Abbreviation parse_and_verify :=
    (parse_and_verify cbor_decode cbor_encode header_of_value tbs_data crypto_into
       crypto_to_string).

  (** What a successful decode went through: the COSE result it reports
      passed the verification gate. *)
Lemma decode_internal_Ok qr_text verifier decryptor options now r :
    decode_internal qr_text verifier decryptor options now = Ok r ->
    exists compressed d cose_result cwt_result claim169,
      base45_decode qr_text = Ok compressed
      /\ decompress compressed (DecodeOptions.max_decompressed_bytes options) = Ok d
      /\ parse_and_verify (fst d) verifier decryptor = Ok cose_result
      /\ (DecodeOptions.allow_unverified options = false ->
          verification_status cose_result <> Skipped)
      /\ verification_status cose_result <> Failed
      /\ cwt_parse (payload cose_result) = Ok cwt_result
      /\ transform (claim_169 cwt_result) (DecodeOptions.skip_biometrics options) = Ok claim169
      /\ DecodeResult.claim169 r = claim169
      /\ DecodeResult.verification_status r = verification_status cose_result.
  Proof.
    unfold decode_internal.
    intros H.
    apply bind_result_Ok in H as (compressed & Hb & H).
    apply bind_result_Ok in H as (d & Hd & H).
    apply bind_result_Ok in H as (cr & Hc & H).
    destruct (DecodeOptions.allow_unverified options) eqn:Ha;
      destruct (verification_status cr) eqn:Hs; simpl in H; try discriminate;
    apply bind_result_Ok in H as (cw & Hw & H);
    apply bind_result_Ok in H as (ws & _ & H);
    apply bind_result_Ok in H as (c & Ht & H);
    injection H as <-;
    exists compressed, d, cr, cw, c;
    rewrite Hs; repeat split; auto; discriminate.
  Qed.
  (** C1 — the verification gate of [decode_internal]: when the COSE stage
      reports [Skipped] and [allow_unverified] is off, decode fails with
      [SignatureInvalid]; when it reports [Failed], decode fails with
      [SignatureInvalid] whatever [allow_unverified] says.  So a returned
      [DecodeResult] never carries [Failed], and carries [Skipped] only when
      [allow_unverified] was set. *)
Theorem decode_internal_verification_gate qr_text verifier decryptor options now :
    (forall compressed d cose_result,
       base45_decode qr_text = Ok compressed ->
       decompress compressed (DecodeOptions.max_decompressed_bytes options) = Ok d ->
       parse_and_verify (fst d) verifier decryptor = Ok cose_result ->
       (verification_status cose_result = Skipped ->
        DecodeOptions.allow_unverified options = false ->
        decode_internal qr_text verifier decryptor options now
        = Err (SignatureInvalid "verification required but no verifier provided"%string))
       /\ (verification_status cose_result = Failed ->
           decode_internal qr_text verifier decryptor options now
           = Err (SignatureInvalid "signature verification failed"%string)))
    /\ (forall r, decode_internal qr_text verifier decryptor options now = Ok r ->
          DecodeResult.verification_status r <> Failed
          /\ (DecodeResult.verification_status r = Skipped ->
              DecodeOptions.allow_unverified options = true)).
  Proof.
    split.
    - intros compressed d cr Hb Hd Hc.
      unfold decode_internal.
      rewrite Hb; cbn [bind_result]. rewrite Hd; cbn [bind_result].
      rewrite Hc; cbn [bind_result].
      split.
      + intros Hs Ha. rewrite Hs, Ha. reflexivity.
      + intros Hs. rewrite Hs. destruct (DecodeOptions.allow_unverified options); reflexivity.
    - intros r H.
      destruct (decode_internal_Ok _ _ _ _ _ _ H)
        as (compressed & d & cr & cw & c & _ & _ & _ & Hsk & Hf & _ & _ & _ & Hst).
      rewrite Hst. split; [exact Hf|].
      intros Hs. destruct (DecodeOptions.allow_unverified options); [reflexivity|].
      exfalso. exact (Hsk eq_refl Hs).
  Qed.
  (** Past the CWT stage, with timestamps validated, the errors of decode
      are those of step 6, or [Claim169Invalid] ones of the transform. *)
Lemma decode_internal_after_cwt qr_text verifier decryptor options now
      compressed d cose_result cwt_result :
    base45_decode qr_text = Ok compressed ->
    decompress compressed (DecodeOptions.max_decompressed_bytes options) = Ok d ->
    parse_and_verify (fst d) verifier decryptor = Ok cose_result ->
    verification_status cose_result <> Failed ->
    (verification_status cose_result = Skipped -> DecodeOptions.allow_unverified options = true) ->
    cwt_parse (payload cose_result) = Ok cwt_result ->
    DecodeOptions.validate_timestamps options = true ->
    forall e,
      (check_timestamps (meta cwt_result) now
         (DecodeOptions.clock_skew_tolerance_seconds options) = Err e ->
       decode_internal qr_text verifier decryptor options now = Err e)
      /\ (decode_internal qr_text verifier decryptor options now = Err e ->
          check_timestamps (meta cwt_result) now
            (DecodeOptions.clock_skew_tolerance_seconds options) = Err e
          \/ exists msg, e = Claim169Invalid msg).
  Proof.
    intros Hb Hd Hc Hf Hs Hw Hv e.
    unfold decode_internal.
    rewrite Hb; cbn [bind_result]. rewrite Hd; cbn [bind_result].
    rewrite Hc; cbn [bind_result].
    assert (Hgate : (negb (DecodeOptions.allow_unverified options)
                     && VerificationStatus_eqb (verification_status cose_result) Skipped) = false
                    /\ VerificationStatus_eqb (verification_status cose_result) Failed = false).
    { destruct (verification_status cose_result); simpl.
      - rewrite andb_false_r. auto.
      - congruence.
      - rewrite (Hs eq_refl). auto. }
    destruct Hgate as [-> ->].
    rewrite Hw; cbn [bind_result]. rewrite Hv.
    destruct (check_timestamps _ _ _) as [u|e'] eqn:Hct; cbn [bind_result].
    - split; [discriminate|].
      intros H. right.
      apply bind_result_Err in H as [H|(x & _ & H)]; [|discriminate].
      eapply transform_Err; exact H.
    - split; [intros [= ->]; reflexivity|intros [= ->]; left; reflexivity].
  Qed.

  (** C6 (amended) — with timestamps validated and the stages before step
      6 passed, and as long as [exp + skew] and [now + skew] stay within
      [i64]: decode returns [Expired exp] exactly when the credential has
      [exp] with [exp < now - skew]; it returns [NotYetValid nbf] exactly
      when it has [nbf] with [nbf > now + skew] and its [exp], if any, is
      not expired ([exp] is checked first); a credential with
      [exp = now - skew] is never reported expired. *)
Theorem decode_internal_timestamps qr_text verifier decryptor options now
      compressed d cose_result cwt_result :
    base45_decode qr_text = Ok compressed ->
    decompress compressed (DecodeOptions.max_decompressed_bytes options) = Ok d ->
    parse_and_verify (fst d) verifier decryptor = Ok cose_result ->
    verification_status cose_result <> Failed ->
    (verification_status cose_result = Skipped -> DecodeOptions.allow_unverified options = true) ->
    cwt_parse (payload cose_result) = Ok cwt_result ->
    DecodeOptions.validate_timestamps options = true ->
    let skew := DecodeOptions.clock_skew_tolerance_seconds options in
    let m := meta cwt_result in
    in_i64 (now + skew) = true ->
    (forall exp, expires_at m = Some exp -> in_i64 (exp + skew) = true) ->
    (forall exp, decode_internal qr_text verifier decryptor options now = Err (Expired exp)
                 <-> expires_at m = Some exp /\ exp < now - skew)
    /\ (forall nbf, decode_internal qr_text verifier decryptor options now = Err (NotYetValid nbf)
                    <-> (forall exp, expires_at m = Some exp -> now - skew <= exp)
                        /\ not_before m = Some nbf /\ nbf > now + skew)
    /\ (expires_at m = Some (now - skew) ->
        forall exp, decode_internal qr_text verifier decryptor options now <> Err (Expired exp)).
  Proof.
    intros Hb Hd Hc Hf Hs Hw Hv skew m Hn He.
    pose proof (decode_internal_after_cwt qr_text verifier decryptor options now
                  compressed d cose_result cwt_result Hb Hd Hc Hf Hs Hw Hv) as Hafter.
    assert (Hexp : forall exp,
               decode_internal qr_text verifier decryptor options now = Err (Expired exp)
               <-> expires_at m = Some exp /\ exp < now - skew).
    { intros exp. rewrite <- (check_timestamps_expired m now skew exp Hn He).
      destruct (Hafter (Expired exp)) as [H1 H2].
      split; [intros H; destruct (H2 H) as [?|[? ?]]; [assumption|discriminate]|exact H1]. }
    split; [exact Hexp|split].
    - intros nbf.
      assert (Hg : nbf > now + skew <-> now + skew < nbf) by lia.
      rewrite Hg, <- (check_timestamps_not_yet_valid m now skew nbf Hn He).
      destruct (Hafter (NotYetValid nbf)) as [H1 H2].
      split; [intros H; destruct (H2 H) as [?|[? ?]]; [assumption|discriminate]|exact H1].
    - intros Heq exp H. apply Hexp in H as [H Hlt]. rewrite Heq in H.
      injection H as <-. lia.
  Qed.
  (** The only warnings decode ever emits are [TimestampValidationSkipped],
      [BiometricsSkipped] and [UnknownFields]; the compression the
      decompressor detected is dropped ([fst]) and reaches none of them. *)
Lemma decode_internal_warning_codes qr_text verifier decryptor options now r :
    decode_internal qr_text verifier decryptor options now = Ok r ->
    Forall (fun w => code w = TimestampValidationSkipped \/ code w = BiometricsSkipped
                     \/ code w = UnknownFields) (DecodeResult.warnings r).
  Proof.
    unfold decode_internal.
    intros H.
    apply bind_result_Ok in H as (compressed & _ & H).
    apply bind_result_Ok in H as (d & _ & H).
    apply bind_result_Ok in H as (cr & _ & H).
    destruct (_ && _); [discriminate|].
    destruct (VerificationStatus_eqb _ _); [discriminate|].
    apply bind_result_Ok in H as (cw & _ & H).
    apply bind_result_Ok in H as (ws & Hws & H).
    apply bind_result_Ok in H as (c & _ & H).
    injection H as <-. simpl.
    assert (Hws' : Forall (fun w => code w = TimestampValidationSkipped
                                    \/ code w = BiometricsSkipped
                                    \/ code w = UnknownFields) ws).
    { destruct (DecodeOptions.validate_timestamps options).
      - apply bind_result_Ok in Hws as (u & _ & [= <-]). constructor.
      - injection Hws as <-. constructor; [simpl; tauto|constructor]. }
    destruct (Nat.eqb _ 0); destruct (DecodeOptions.skip_biometrics options);
      repeat (apply Forall_app; split); try assumption;
      repeat (constructor; [simpl; tauto|]); constructor.
  Qed.
  (** The warnings of a successful decode, in order. *)
Lemma decode_internal_warning_list qr_text verifier decryptor options now r :
    decode_internal qr_text verifier decryptor options now = Ok r ->
    map code (DecodeResult.warnings r)
    = (if DecodeOptions.validate_timestamps options then [] else [TimestampValidationSkipped])
      ++ (if DecodeOptions.skip_biometrics options then [BiometricsSkipped] else [])
      ++ (if Nat.eqb (size (Claim169.unknown_fields (DecodeResult.claim169 r))) 0 then []
          else [UnknownFields]).
  Proof.
    unfold decode_internal. intros H.
    apply bind_result_Ok in H as (compressed & _ & H).
    apply bind_result_Ok in H as (d & _ & H).
    apply bind_result_Ok in H as (cr & _ & H).
    destruct (_ && _); [discriminate|].
    destruct (VerificationStatus_eqb _ _); [discriminate|].
    apply bind_result_Ok in H as (cw & _ & H).
    apply bind_result_Ok in H as (ws & Hws & H).
    apply bind_result_Ok in H as (c & _ & H).
    injection H as <-. simpl.
    assert (Hw : map code ws
                 = if DecodeOptions.validate_timestamps options then []
                   else [TimestampValidationSkipped]).
    { destruct (DecodeOptions.validate_timestamps options).
      - apply bind_result_Ok in Hws as (u & _ & [= <-]). reflexivity.
      - injection Hws as <-. reflexivity. }
    destruct (Nat.eqb _ 0); destruct (DecodeOptions.skip_biometrics options);
      rewrite ?map_app, Hw; simpl; rewrite ?app_nil_r, <- ?app_assoc; reflexivity.
  Qed.
End DecodeProps.

Lemma decode_internal_verification_gate_witness :
  toy_decode (mkCwtMeta None None None None None) (Map []) None DecodeOptions.default 0
  = Err (SignatureInvalid "verification required but no verifier provided"%string).
Proof.
  refine (proj1 (proj1 (decode_internal_verification_gate toy_base45_decode (fun _ => [])
            (fun _ => []) false toy_cbor_decode toy_cbor_encode toy_header_of_value toy_tbs_data
            toy_crypto_into toy_crypto_to_string
            (toy_cwt_parse (mkCwtMeta None None None None None) (Map [])) "toy"%string None None
            DecodeOptions.default 0) [x01] ([x01], DNone)
            (mkCoseResult [x02] Skipped (Some (-8)) None X509Headers_default)
            eq_refl eq_refl _) eq_refl eq_refl).
  vm_compute. reflexivity.
Defined.

Lemma decode_internal_timestamps_witness :
  toy_decode (mkCwtMeta None None (Some 990) None None) (Map []) (Some toy_verifier)
    DecodeOptions.default 1000
  = Err (Expired 990).
Proof.
  refine (proj2 (proj1 (decode_internal_timestamps toy_base45_decode (fun _ => [])
            (fun _ => []) false toy_cbor_decode toy_cbor_encode toy_header_of_value toy_tbs_data
            toy_crypto_into toy_crypto_to_string
            (toy_cwt_parse (mkCwtMeta None None (Some 990) None None) (Map [])) "toy"%string
            (Some toy_verifier) None DecodeOptions.default 1000 [x01] ([x01], DNone)
            (mkCoseResult [x02] Verified (Some (-8)) None X509Headers_default)
            (mkCwtResult (mkCwtMeta None None (Some 990) None None) (Map []))
            eq_refl eq_refl _ _ _ eq_refl eq_refl eq_refl _) 990) _).
  - vm_compute. reflexivity.
  - simpl. discriminate.
  - simpl. discriminate.
  - simpl. intros exp [= <-]. reflexivity.
  - simpl. split; [reflexivity|lia].
Defined.

(** C6 counterexample: an expired credential that is also not yet valid
    ([nbf = 1100 > now + skew = 1000]) is reported [Expired], never
    [NotYetValid]: the [exp] check runs first. *)
Lemma decode_internal_expired_before_nbf_cex :
  let m := mkCwtMeta None None (Some 990) (Some 1100) None in
  not_before m = Some 1100 /\ 1100 > 1000 + DecodeOptions.clock_skew_tolerance_seconds DecodeOptions.default
  /\ toy_decode m (Map []) (Some toy_verifier) DecodeOptions.default 1000 = Err (Expired 990).
Proof. vm_compute. split; [reflexivity|split; [reflexivity|reflexivity]]. Qed.

(** C7 counterexample — a raw COSE payload (no zlib header, kept as it is:
    detected compression [None]) decodes and verifies, and the result has
    no warning at all: decode has no [NonStandardCompression] warning. *)
Theorem decode_internal_raw_payload_no_warning :
  decompress (fun _ => []) (fun _ => []) false [x01] 65536 = Ok ([x01], DNone)
  /\ exists r,
       toy_decode (mkCwtMeta None None None None None) (Map []) (Some toy_verifier)
         DecodeOptions.default 1000 = Ok r
       /\ DecodeResult.verification_status r = Verified
       /\ DecodeResult.warnings r = [].
Proof.
  split; [reflexivity|].
  eexists. split; [vm_compute; reflexivity|split; reflexivity].
Qed.
(** C7 (amended) — decode never reports the compression it met.
    [decode_internal] keeps only the bytes [pipeline::decompress] returns, so
    two decompressors that turn the same input into the same bytes, whatever
    compression each one detects (raw, zlib or brotli), give the same decode
    result; and the warnings of a successful decode are exactly
    [TimestampValidationSkipped] (timestamps not validated),
    [BiometricsSkipped] (biometrics skipped) and [UnknownFields] (unknown
    fields kept), in that order: there is no [NonStandardCompression]
    warning. *)
Theorem decode_internal_ignores_detected_compression
    (base45_decode : string -> Result bytes)
    (zlib_reads brotli_reads : bytes -> list ReadResult) (compression_brotli : bool)
    (cbor_decode : bytes -> option Value) (cbor_encode : Value -> bytes)
    (header_of_value : Value -> option Header.t) (tbs_data : CoseSign1.t -> bytes)
    (crypto_into : CryptoError -> Claim169Error) (crypto_to_string : CryptoError -> string)
    (cwt_parse : bytes -> Result CwtResult)
    qr_text verifier decryptor options now :
  (forall zlib_reads' brotli_reads' compression_brotli' compressed out c c',
     base45_decode qr_text = Ok compressed ->
     decompress zlib_reads brotli_reads compression_brotli compressed
       (DecodeOptions.max_decompressed_bytes options) = Ok (out, c) ->
     decompress zlib_reads' brotli_reads' compression_brotli' compressed
       (DecodeOptions.max_decompressed_bytes options) = Ok (out, c') ->
     decode_internal base45_decode zlib_reads' brotli_reads' compression_brotli' cbor_decode
       cbor_encode header_of_value tbs_data crypto_into crypto_to_string cwt_parse
       qr_text verifier decryptor options now
     = decode_internal base45_decode zlib_reads brotli_reads compression_brotli cbor_decode
         cbor_encode header_of_value tbs_data crypto_into crypto_to_string cwt_parse
         qr_text verifier decryptor options now)
  /\ (forall r,
       decode_internal base45_decode zlib_reads brotli_reads compression_brotli cbor_decode
         cbor_encode header_of_value tbs_data crypto_into crypto_to_string cwt_parse
         qr_text verifier decryptor options now = Ok r ->
       map code (DecodeResult.warnings r)
       = (if DecodeOptions.validate_timestamps options then [] else [TimestampValidationSkipped])
         ++ (if DecodeOptions.skip_biometrics options then [BiometricsSkipped] else [])
         ++ (if Nat.eqb (size (Claim169.unknown_fields (DecodeResult.claim169 r))) 0 then []
             else [UnknownFields])).
Proof.
  split.
  - intros zr' br' cb' compressed out c c' Hb Hd Hd'.
    unfold decode_internal.
    rewrite Hb. cbn [bind_result]. rewrite Hd, Hd'. reflexivity.
  - intros r H. exact (decode_internal_warning_list _ _ _ _ _ _ _ _ _ _ _ _ _ _ _ _ _ H).
Qed.

(** Raw bytes starting like a tagged COSE_Sign1 ([0xD2]): kept raw when
    the brotli feature is off, and taken as brotli output by a brotli
    decoder that hands the same byte back. *)
Lemma decode_internal_ignores_detected_compression_witness :
  let front (_ : string) : Result bytes := Ok [xd2] in
  let cbor (d : bytes) := toy_cbor_decode (match d with [xd2] => [x01] | _ => d end) in
  let dec zr br cb := decode_internal front zr br cb cbor toy_cbor_encode toy_header_of_value
        toy_tbs_data toy_crypto_into toy_crypto_to_string
        (toy_cwt_parse toy_meta0 (Map [])) "toy"%string (Some toy_verifier) None
        DecodeOptions.default 0 in
  decompress (fun _ => []) (fun _ => []) false [xd2] 65536 = Ok ([xd2], DNone)
  /\ decompress (fun _ => []) (fun _ => [ROk [xd2]]) true [xd2] 65536 = Ok ([xd2], DBrotli)
  /\ dec (fun _ => []) (fun _ => [ROk [xd2]]) true = dec (fun _ => []) (fun _ => []) false
  /\ exists r, dec (fun _ => []) (fun _ => []) false = Ok r /\ DecodeResult.warnings r = [].
Proof.
  cbv zeta.
  refine (conj eq_refl (conj eq_refl (conj _ _))).
  - exact (proj1 (decode_internal_ignores_detected_compression
             (fun _ : string => Ok [xd2] : Result bytes) (fun _ => [])
             (fun _ => []) false
             (fun d : bytes => toy_cbor_decode (match d with [xd2] => [x01] | _ => d end))
             toy_cbor_encode toy_header_of_value toy_tbs_data
             toy_crypto_into toy_crypto_to_string (toy_cwt_parse toy_meta0 (Map []))
             "toy"%string (Some toy_verifier) None DecodeOptions.default 0)
             (fun _ => []) (fun _ => [ROk [xd2]]) true [xd2] [xd2] DNone DBrotli
             eq_refl eq_refl eq_refl).
  - eexists. split; [vm_compute; reflexivity|reflexivity].
Defined.


(** ** The claim 169 transform *)

Lemma fold_best_quality_step arr acc :
  fold_left best_quality_step arr acc = acc ++ filter_map finger_in_range_spec arr.
Proof.
  revert acc. induction arr as [|item arr IH]; intros acc; simpl.
  - rewrite app_nil_r. reflexivity.
  - rewrite IH. destruct item; simpl; try reflexivity.
    destruct (Z.leb_spec 0 i), (Z.leb_spec i 255), (Z.leb_spec i 10); simpl;
      rewrite <- ?app_assoc; try reflexivity; lia.
Qed.

Lemma transform_entries_app skip pre post claim uf :
  transform_entries skip (pre ++ post) claim uf
  = let? r := transform_entries skip pre claim uf in transform_entries skip post (fst r) (snd r).
Proof.
  revert claim uf. induction pre as [|[key val] pre IH]; intros claim uf; [reflexivity|].
  simpl. destruct key; try reflexivity.
  destruct (in_i64 i); [|reflexivity].
  repeat match goal with
         | |- context [if ?b then _ else _] => destruct b
         | |- context [match cbor_to_json val with _ => _ end] => destruct (cbor_to_json val)
         end; apply IH.
Qed.

Lemma transform_entries_ok skip entries claim uf :
  Forall (fun e => key_ok (fst e) = true) entries ->
  exists c u, transform_entries skip entries claim uf = Ok (c, u).
Proof.
  revert claim uf. induction entries as [|[key val] rest IH]; intros claim uf Hk; simpl.
  - exists claim, uf. reflexivity.
  - inversion Hk as [|? ? Hkey Hrest]; subst. simpl in Hkey.
    destruct key; try discriminate. simpl in Hkey. rewrite Hkey.
    repeat match goal with
           | |- context [if ?b then _ else _] => destruct b
           | |- context [match cbor_to_json val with _ => _ end] => destruct (cbor_to_json val)
           end; apply IH; exact Hrest.
Qed.

(** A field no entry writes keeps its value through the loop. *)
Lemma transform_entries_keeps (f : Claim169.t -> option (list Z)) (k : Z) skip entries claim uf c u :
  (forall c' i v, i <> k -> f (set_demographic c' i v) = f c') ->
  (forall c' i b, f (set_biometric c' i b) = f c') ->
  Forall (fun e => fst e <> Integer k) entries ->
  transform_entries skip entries claim uf = Ok (c, u) ->
  f c = f claim.
Proof.
  intros Hd Hb. revert claim uf.
  induction entries as [|[key val] rest IH]; intros claim uf Hk H; simpl in H.
  - injection H as <- _. reflexivity.
  - inversion Hk as [|? ? Hkey Hrest]; subst. simpl in Hkey.
    destruct key; try discriminate.
    destruct (in_i64 i); [|discriminate].
    assert (Hik : i <> k) by congruence.
    repeat match type of H with
           | context [if ?b then _ else _] => destruct b
           | context [match cbor_to_json val with _ => _ end] => destruct (cbor_to_json val)
           end;
      rewrite (IH _ _ Hrest H); first [apply Hd; exact Hik | apply Hb | reflexivity].
Qed.

Lemma best_quality_fingers_set_demographic c' i v :
  i <> 18 -> Claim169.best_quality_fingers (set_demographic c' i v)
             = Claim169.best_quality_fingers c'.
Proof. intros H. simpl. rewrite (proj2 (Z.eqb_neq i 18) H). reflexivity. Qed.

(** Running the loop over [pre ++ (key, val) :: post] with well-formed
    keys: the entry is applied to whatever [pre] left. *)
Lemma transform_entries_split skip pre key val post claim uf :
  Forall (fun e => key_ok (fst e) = true) (pre ++ (key, val) :: post) ->
  exists c1 u1 c u,
    transform_entries skip pre claim uf = Ok (c1, u1)
    /\ transform_entries skip ((key, val) :: post) c1 u1 = Ok (c, u)
    /\ transform_entries skip (pre ++ (key, val) :: post) claim uf = Ok (c, u).
Proof.
  intros Hk. apply Forall_app in Hk as [Hpre Hpost].
  destruct (transform_entries_ok skip pre claim uf Hpre) as (c1 & u1 & H1).
  destruct (transform_entries_ok skip ((key, val) :: post) c1 u1 Hpost) as (c & u & H2).
  exists c1, u1, c, u. split; [exact H1|split; [exact H2|]].
  rewrite transform_entries_app, H1. exact H2.
Qed.

(** C9 — the array under key 18 is read as the integer items in [[0, 10]],
    in their order; other items are dropped without error (an array with
    none left gives [None]).  Decoding a claim 169 map with well-formed keys
    never fails, and the last key-18 entry gives [best_quality_fingers]. *)
Theorem best_quality_fingers_in_range (arr : list Value) :
  let kept := filter_map finger_in_range_spec arr in
  extract_best_quality_fingers (Array arr) = (match kept with [] => None | _ => Some kept end)
  /\ (forall skip pre post,
        Forall (fun e => key_ok (fst e) = true) (pre ++ (Integer 18, Array arr) :: post) ->
        Forall (fun e => fst e <> Integer 18) post ->
        exists c, transform (Map (pre ++ (Integer 18, Array arr) :: post)) skip = Ok c
                  /\ Claim169.best_quality_fingers c
                     = (match kept with [] => None | _ => Some kept end)).
Proof.
  intros kept.
  assert (Hx : extract_best_quality_fingers (Array arr)
               = (match kept with [] => None | _ => Some kept end)).
  { unfold extract_best_quality_fingers. rewrite fold_best_quality_step. simpl.
    unfold kept. destruct (filter_map finger_in_range_spec arr); reflexivity. }
  split; [exact Hx|].
  intros skip pre post Hk Hpost.
  destruct (transform_entries_split skip pre (Integer 18) (Array arr) post Claim169.default ∅ Hk)
    as (c1 & u1 & c & u & _ & H2 & H).
  exists (set_unknown_fields c u). split.
  - unfold transform. rewrite H. reflexivity.
  - simpl in H2.
    change (Claim169.best_quality_fingers c = match kept with [] => None | _ => Some kept end).
    rewrite (transform_entries_keeps Claim169.best_quality_fingers 18 skip post _ u1 c u
               best_quality_fingers_set_demographic (fun _ _ _ => eq_refl) Hpost H2).
    simpl. exact Hx.
Qed.

Lemma best_quality_fingers_in_range_witness :
  exists c,
    transform (Map [(Integer 1, Text "A1"%string);
                    (Integer 18, Array [Integer 3; Integer 11; Text "x"%string; Integer (-1);
                                        Integer 0]);
                    (Integer 99, Null)]) false = Ok c
    /\ Claim169.best_quality_fingers c = Some [3; 0].
Proof.
  refine (proj2 (best_quality_fingers_in_range
                   [Integer 3; Integer 11; Text "x"%string; Integer (-1); Integer 0])
            false [(Integer 1, Text "A1"%string)] [(Integer 99, Null)] _ _).
  - repeat constructor.
  - constructor; [simpl; discriminate|constructor].
Defined.

Lemma biometric_fields_no_data entries st st' :
  Forall (fun e => fst e <> Integer 0) entries ->
  biometric_fields entries st = Some st' -> bf_data st' = bf_data st.
Proof.
  revert st. induction entries as [|[key val] rest IH]; intros st Hk H; simpl in H.
  - injection H as <-. reflexivity.
  - inversion Hk as [|? ? Hkey Hrest]; subst. simpl in Hkey.
    destruct key; try (apply (IH st Hrest H)).
    destruct (in_i64 i); [|discriminate].
    assert (Hi : (i =? 0) = false) by (apply Z.eqb_neq; intros ->; apply Hkey; reflexivity).
    rewrite Hi in H.
    rewrite (IH _ Hrest H).
    repeat match goal with |- context [if ?b then _ else _] => destruct b end; reflexivity.
Qed.

Lemma extract_biometrics_not_empty v : extract_biometrics v <> Some [].
Proof.
  destruct v; unfold extract_biometrics; try discriminate.
  - destruct (filter_map extract_single_biometric items); discriminate.
  - destruct (extract_single_biometric (Map entries)); simpl; discriminate.
Qed.

Lemma biometric_slots_set_biometric (P : option (list Biometric.t) -> Prop) c i b :
  Forall P (biometric_slots c) -> P b -> Forall P (biometric_slots (set_biometric c i b)).
Proof.
  intros HF Hb. unfold biometric_slots in *. simpl.
  repeat (apply Forall_cons in HF as [? HF]).
  repeat (constructor; [match goal with |- context [if ?x then _ else _] => destruct x end;
                        assumption|]).
  constructor.
Qed.

Lemma transform_entries_slots (P : option (list Biometric.t) -> Prop) skip entries claim uf c u :
  (forall v, P (extract_biometrics v)) ->
  Forall P (biometric_slots claim) ->
  transform_entries skip entries claim uf = Ok (c, u) ->
  Forall P (biometric_slots c).
Proof.
  intros Hx. revert claim uf.
  induction entries as [|[key val] rest IH]; intros claim uf HP H; simpl in H.
  - injection H as <- _. exact HP.
  - destruct key; try discriminate.
    destruct (in_i64 i); [|discriminate].
    repeat match type of H with
           | context [if ?b then _ else _] => destruct b
           | context [match cbor_to_json val with _ => _ end] => destruct (cbor_to_json val)
           end;
      refine (IH _ _ _ H);
      first [exact HP | apply biometric_slots_set_biometric; [exact HP|apply Hx]].
Qed.

(** C10 — a biometric entry map with no data field (key 0) is dropped
    without error, and a biometric slot never holds [Some []]: an empty
    array, an array all of whose entries are dropped, and a value that is
    neither a map nor an array all give [None], and no decoded [Claim169]
    has an empty slot. *)
Theorem biometric_slots_never_empty :
  (forall m, Forall (fun e => fst e <> Integer 0) m -> extract_single_biometric (Map m) = None)
  /\ (forall v, extract_biometrics v <> Some [])
  /\ extract_biometrics (Array []) = None
  /\ (forall arr, Forall (fun e => extract_single_biometric e = None) arr ->
                  extract_biometrics (Array arr) = None)
  /\ (forall arr, extract_biometrics (Array arr)
                  = match filter_map extract_single_biometric arr with
                    | [] => None
                    | biometrics => Some biometrics
                    end)
  /\ (forall v, match v with Map _ | Array _ => False | _ => True end ->
                extract_biometrics v = None)
  /\ (forall v skip c, transform v skip = Ok c ->
                       Forall (fun slot => slot <> Some []) (biometric_slots c)).
Proof.
  refine (conj _ (conj extract_biometrics_not_empty (conj eq_refl (conj _ (conj _ (conj _ _)))))).
  - intros m Hk. unfold extract_single_biometric.
    destruct (biometric_fields m _) as [st|] eqn:E; [|reflexivity].
    simpl. rewrite (biometric_fields_no_data m _ st Hk E). reflexivity.
  - intros arr Hn. unfold extract_biometrics.
    induction Hn as [|e arr He _ IH]; [reflexivity|].
    simpl. rewrite He. exact IH.
  - reflexivity.
  - intros v Hv. destruct v; try contradiction; reflexivity.
  - intros v skip c H. unfold transform in H. destruct v; try discriminate.
    apply bind_result_Ok in H as ([c' u] & H & [= <-]).
    change (Forall (fun slot => slot <> Some []) (biometric_slots c')).
    refine (transform_entries_slots _ skip entries Claim169.default ∅ c' u
              extract_biometrics_not_empty _ H).
    repeat constructor; discriminate.
Qed.

Lemma biometric_slots_never_empty_witness :
  extract_biometrics (Array [Map [(Integer 1, Integer 0); (Integer 3, Text "MOSIP"%string)]])
  = None.
Proof.
  refine (proj1 (proj2 (proj2 (proj2 biometric_slots_never_empty)))
            [Map [(Integer 1, Integer 0); (Integer 3, Text "MOSIP"%string)]] _).
  constructor; [|constructor].
  exact (proj1 biometric_slots_never_empty [(Integer 1, Integer 0); (Integer 3, Text "MOSIP"%string)]
           ltac:(repeat constructor; simpl; discriminate)).
Defined.

(** ** Unknown keys *)

Lemma transform_entries_unknown_other skip entries claim uf c u k :
  Forall (fun e => fst e <> Integer k) entries ->
  transform_entries skip entries claim uf = Ok (c, u) ->
  u !! k = uf !! k.
Proof.
  revert claim uf.
  induction entries as [|[key val] rest IH]; intros claim uf Hk H; simpl in H.
  - injection H as _ <-. reflexivity.
  - inversion Hk as [|? ? Hkey Hrest]; subst. simpl in Hkey.
    destruct key; try discriminate.
    destruct (in_i64 i); [|discriminate].
    assert (Hik : i <> k) by (intros ->; apply Hkey; reflexivity).
    repeat match type of H with
           | context [if ?b then _ else _] => destruct b
           | context [match cbor_to_json val with _ => _ end] => destruct (cbor_to_json val)
           end;
      rewrite (IH _ _ Hrest H); try reflexivity.
    apply lookup_insert_ne. congruence.
Qed.

Lemma transform_entries_unknown_entry skip k v post claim uf :
  in_i64 k = true -> ~ (1 <= k <= 23) -> ~ (50 <= k <= 65) ->
  transform_entries skip ((Integer k, v) :: post) claim uf
  = transform_entries skip post claim
      (match cbor_to_json v with Some j => <[k := j]> uf | None => uf end).
Proof.
  intros Hk H1 H2. simpl. rewrite Hk.
  destruct (Z.leb_spec 1 k), (Z.leb_spec k 23); simpl; try lia;
  destruct (Z.leb_spec 50 k), (Z.leb_spec k 65); simpl; try lia;
  destruct (cbor_to_json v); reflexivity.
Qed.

Lemma transform_Err_key m skip e :
  transform (Map m) skip = Err e -> Exists (fun e => key_ok (fst e) = false) m.
Proof.
  intros H.
  destruct (decide (Forall (fun e => key_ok (fst e) = true) m)) as [Hk|Hk].
  - destruct (transform_entries_ok skip m Claim169.default ∅ Hk) as (c & u & Hc).
    unfold transform in H. rewrite Hc in H. discriminate.
  - apply not_Forall_Exists in Hk; [|apply _].
    eapply Exists_impl; [exact Hk|].
    intros x Hx. simpl in Hx. destruct (key_ok (fst x)); [contradiction|reflexivity].
Qed.

Lemma cbor_to_json_Map m : cbor_to_json (Map m) = Some (Json.Object (json_entries m [])).
Proof. reflexivity. Qed.

Lemma json_get_insert k k' v o :
  json_get k (Json.insert k' v o) = if String.eqb k k' then Some v else json_get k o.
Proof.
  induction o as [|[k2 v2] o IH]; simpl.
  - reflexivity.
  - destruct (String.eqb_spec k' k2) as [->|Hne]; simpl.
    + destruct (String.eqb k k2); reflexivity.
    + rewrite IH. destruct (String.eqb_spec k k'), (String.eqb_spec k k2); subst; try congruence.
Qed.

Lemma insert_keys k v o : NoDup (map fst o) -> NoDup (map fst (Json.insert k v o)).
Proof.
  induction o as [|[k2 v2] o IH]; simpl; intros Hn.
  - constructor; [set_solver|constructor].
  - inversion Hn as [|? ? Hnot Hn']; subst.
    destruct (String.eqb_spec k k2) as [->|Hne]; simpl; [exact Hn|].
    constructor; [|exact (IH Hn')].
    assert (Hk : forall o', k2 ∉ map fst o' -> k2 <> k -> k2 ∉ map fst (Json.insert k v o')).
    { clear. induction o' as [|[k3 v3] o' IH']; simpl; intros H1 H2.
      - set_solver.
      - destruct (String.eqb_spec k k3) as [->|?]; simpl; set_solver. }
    apply Hk; [exact Hnot|congruence].
Qed.

Lemma json_entries_get k l acc :
  json_get k (json_entries l acc)
  = fold_left (fun acc (e : Value * Value) =>
               match json_key (fst e) with
               | Some s => if String.eqb s k then
                             match cbor_to_json (snd e) with Some j => Some j | None => acc end
                           else acc
               | None => acc
               end) l (json_get k acc).
Proof.
  revert acc. induction l as [|[k' v] l IH]; intros acc; simpl; [reflexivity|].
  destruct (json_key k') as [s|]; [|apply IH].
  destruct (cbor_to_json v) as [j|] eqn:Ej.
  - rewrite IH, json_get_insert.
    destruct (String.eqb_spec k s), (String.eqb_spec s k); subst; congruence.
  - rewrite IH. destruct (String.eqb s k); reflexivity.
Qed.

Lemma json_entries_keys l acc : NoDup (map fst acc) -> NoDup (map fst (json_entries l acc)).
Proof.
  revert acc. induction l as [|[k' v] l IH]; intros acc Hn; simpl; [exact Hn|].
  destruct (json_key k'); [|exact (IH _ Hn)].
  destruct (cbor_to_json v); apply IH; [apply insert_keys|]; exact Hn.
Qed.

Lemma cbor_to_json_Array items :
  cbor_to_json (Array items) = Some (Json.Array (omap cbor_to_json items)).
Proof.
  reflexivity.
Qed.

Section UnknownFieldsProps.
  Context (base45_decode : string -> Result bytes)
          (zlib_reads brotli_reads : bytes -> list ReadResult) (compression_brotli : bool)
          (cbor_decode : bytes -> option Value) (cbor_encode : Value -> bytes)
          (header_of_value : Value -> option Header.t) (tbs_data : CoseSign1.t -> bytes)
          (crypto_into : CryptoError -> Claim169Error)
          (crypto_to_string : CryptoError -> string)
          (cwt_parse : bytes -> Result CwtResult).

Local Abbreviation decode_internal :=
    (decode_internal base45_decode zlib_reads brotli_reads compression_brotli cbor_decode
       cbor_encode header_of_value tbs_data crypto_into crypto_to_string cwt_parse).

Lemma decode_internal_unknown_fields_warning qr_text verifier decryptor options now r k j :
    decode_internal qr_text verifier decryptor options now = Ok r ->
    Claim169.unknown_fields (DecodeResult.claim169 r) !! k = Some j ->
    Exists (fun w => code w = UnknownFields) (DecodeResult.warnings r).
  Proof.
    unfold decode_internal.
    intros H Hj.
    apply bind_result_Ok in H as (compressed & _ & H).
    apply bind_result_Ok in H as (d & _ & H).
    apply bind_result_Ok in H as (cr & _ & H).
    destruct (_ && _); [discriminate|].
    destruct (VerificationStatus_eqb _ _); [discriminate|].
    apply bind_result_Ok in H as (cw & _ & H).
    apply bind_result_Ok in H as (ws & _ & H).
    apply bind_result_Ok in H as (c & _ & H).
    injection H as <-. simpl in *.
    destruct (Nat.eqb_spec (size (Claim169.unknown_fields c)) 0) as [Hs|Hs].
    - apply map_size_empty_iff in Hs. rewrite Hs, lookup_empty in Hj. discriminate.
    - apply Exists_app. right. constructor. reflexivity.
  Qed.

  (** C8 (amended) — a key [k] that fits [i64] and lies outside 1..23 and
      50..65, occurring once in a claim 169 map whose keys are all integers
      fitting [i64]: the transform succeeds and [unknown_fields] maps [k] to
      [cbor_to_json] of its value, so [k] is kept exactly when that value
      has a JSON form and is dropped without a warning otherwise; a decode
      whose claim keeps an unknown field reports an [UnknownFields]
      warning.  The transform fails only on a key that is not an integer or
      does not fit [i64] ([Claim169Invalid]), never because of a value.
      [cbor_to_json] turns byte strings into padded standard base64 text,
      passes text, booleans, null, [i64] integers and finite floats
      through, and recurses into arrays and maps: an array keeps, in order,
      the items that have a JSON form; a map becomes an object with no
      repeated key in which each key holds the value of the last entry
      whose key reads as it (text, or an integer in decimal) and whose value
      has a JSON form, so entries with other keys or without a JSON value
      are left out; tags, integers outside [i64] and non-finite floats
      have no JSON form.  A successful decode reports [UnknownFields]
      exactly when the claim kept an unknown field, so a dropped key gives
      no warning. *)
Theorem transform_unknown_fields_preserved (k : Z) (v : Value) :
    in_i64 k = true -> ~ (1 <= k <= 23) -> ~ (50 <= k <= 65) ->
    (forall skip pre post,
       Forall (fun e => key_ok (fst e) = true) (pre ++ (Integer k, v) :: post) ->
       Forall (fun e => fst e <> Integer k) (pre ++ post) ->
       exists c, transform (Map (pre ++ (Integer k, v) :: post)) skip = Ok c
                 /\ Claim169.unknown_fields c !! k = cbor_to_json v)
    /\ (forall qr_text verifier decryptor options now r j,
          decode_internal qr_text verifier decryptor options now = Ok r ->
          Claim169.unknown_fields (DecodeResult.claim169 r) !! k = Some j ->
          Exists (fun w => code w = UnknownFields) (DecodeResult.warnings r))
    /\ (forall m skip e, transform (Map m) skip = Err e ->
                         Exists (fun e => key_ok (fst e) = false) m)
    /\ (forall b, cbor_to_json (Bytes b) = Some (Json.String (base64_encode b)))
    /\ (forall s, cbor_to_json (Text s) = Some (Json.String s))
    /\ (forall b, cbor_to_json (Bool b) = Some (Json.Bool b))
    /\ cbor_to_json Null = Some Json.Null
    /\ (forall i, cbor_to_json (Integer i)
                  = if in_i64 i then Some (Json.Num (Json.PosOrNegInt i)) else None)
    /\ (forall f, cbor_to_json (Float f)
                  = if PrimFloat.is_finite f then Some (Json.Num (Json.Float f)) else None)
    /\ (forall items, cbor_to_json (Array items) = Some (Json.Array (omap cbor_to_json items)))
    /\ (forall entries, exists obj, cbor_to_json (Map entries) = Some (Json.Object obj)
          /\ NoDup (map fst obj)
          /\ forall s, json_get s obj = json_last_entry s entries)
    /\ (forall t x, cbor_to_json (Tag t x) = None)
    /\ (forall qr_text verifier decryptor options now r,
          decode_internal qr_text verifier decryptor options now = Ok r ->
          (Exists (fun w => code w = UnknownFields) (DecodeResult.warnings r)
           <-> size (Claim169.unknown_fields (DecodeResult.claim169 r)) <> 0%nat)).
  Proof.
    intros Hk H1 H2.
    split; [|split; [|split; [exact transform_Err_key|]]].
    - intros skip pre post Hok Hnot.
      destruct (transform_entries_split skip pre (Integer k) v post Claim169.default ∅ Hok)
        as (c1 & u1 & c & u & Hpre & H & Hall).
      apply Forall_app in Hnot as [Hnpre Hnpost].
      exists (set_unknown_fields c u). split.
      + unfold transform. rewrite Hall. reflexivity.
      + change (u !! k = cbor_to_json v).
        rewrite (transform_entries_unknown_entry skip k v post c1 u1 Hk H1 H2) in H.
        rewrite (transform_entries_unknown_other skip post _ _ c u k Hnpost H).
        destruct (cbor_to_json v); [apply lookup_insert_eq|].
        rewrite (transform_entries_unknown_other skip pre _ _ c1 u1 k Hnpre Hpre).
        apply lookup_empty.
    - intros. eapply decode_internal_unknown_fields_warning; eassumption.
    - refine (conj (fun b => eq_refl) (conj (fun s => eq_refl) (conj (fun b => eq_refl)
               (conj eq_refl (conj (fun i => eq_refl) (conj (fun f => eq_refl)
               (conj cbor_to_json_Array (conj _ (conj (fun t x => eq_refl) _))))))))).
      + intros entries. exists (json_entries entries []).
        refine (conj (cbor_to_json_Map entries) (conj _ _)).
        * apply json_entries_keys. constructor.
        * intros s. rewrite json_entries_get. reflexivity.
      + intros qr_text verifier decryptor options now r H.
        assert (Hx : forall ws, Exists (fun w => code w = UnknownFields) ws
                                <-> In UnknownFields (map code ws)).
        { intros ws. rewrite List.Exists_exists, List.in_map_iff.
          split; intros (w & Hw1 & Hw2); exists w; split; assumption. }
        rewrite Hx, (decode_internal_warning_list _ _ _ _ _ _ _ _ _ _ _ _ _ _ _ _ _ H).
        destruct (Nat.eqb_spec (size (Claim169.unknown_fields (DecodeResult.claim169 r))) 0)
          as [Hs|Hs];
          destruct (DecodeOptions.validate_timestamps options),
                   (DecodeOptions.skip_biometrics options); simpl;
          intuition discriminate.
  Qed.
End UnknownFieldsProps.

Lemma transform_unknown_fields_preserved_witness :
  exists c,
    transform (Map [(Integer 1, Text "A1"%string); (Integer 99, Bytes [x4d; x61; x6e])]) false
    = Ok c
    /\ Claim169.unknown_fields c !! 99 = Some (Json.String "TWFu"%string).
Proof.
  refine (proj1 (transform_unknown_fields_preserved toy_base45_decode (fun _ => [])
            (fun _ => []) false toy_cbor_decode toy_cbor_encode toy_header_of_value toy_tbs_data
            toy_crypto_into toy_crypto_to_string
            (toy_cwt_parse (mkCwtMeta None None None None None) (Map []))
            99 (Bytes [x4d; x61; x6e]) eq_refl _ _)
            false [(Integer 1, Text "A1"%string)] [] _ _).
  - lia.
  - lia.
  - repeat constructor.
  - constructor; [simpl; discriminate|constructor].
Defined.

(** C8 counterexample: an unknown key whose value has no JSON form (here a
    tag) is dropped from [unknown_fields] and no warning is emitted; an
    integer key beyond [i64] makes the transform fail. *)
Lemma transform_unknown_key_dropped_cex :
  (exists r,
     toy_decode (mkCwtMeta None None None None None) (Map [(Integer 99, Tag 1 Null)])
       (Some toy_verifier) DecodeOptions.default 1000 = Ok r
     /\ Claim169.unknown_fields (DecodeResult.claim169 r) !! 99 = None
     /\ DecodeResult.warnings r = [])
  /\ transform (Map [(Integer (2 ^ 63), Null)]) false
     = Err (Claim169Invalid "claim 169 key 9223372036854775808 is out of valid range"%string).
Proof.
  split.
  - eexists. split; [vm_compute; reflexivity|split; reflexivity].
  - vm_compute. reflexivity.
Qed.

(* ------------------------------------------------------------------ *)
(** ** The encoder and [transform] *)
















(* ------------------------------------------------------------------ *)
(** ** Enum codes *)

Ltac try_from_cases v :=
  repeat match goal with
         | |- context [v =? ?n] => destruct (Z.eqb_spec v n) as [->|?]
         | |- context [(?a <=? v) && (v <=? ?b)] =>
             destruct (Z.leb_spec a v), (Z.leb_spec v b); simpl
         end.

(** X2 — the enums with fixed codes read back what they write: for
    [Gender], [MaritalStatus], [PhotoFormat], [BiometricFormat] and
    [SoundSubFormat], [try_from v = Some x] exactly when [x]'s code is [v]. *)
Theorem enum_try_from_to_i64 :
  (forall v x, Gender.try_from v = Some x <-> Gender.to_i64 x = v)
  /\ (forall v x, MaritalStatus.try_from v = Some x <-> MaritalStatus.to_i64 x = v)
  /\ (forall v x, PhotoFormat.try_from v = Some x <-> PhotoFormat.to_i64 x = v)
  /\ (forall v x, BiometricFormat.try_from v = Some x <-> BiometricFormat.to_i64 x = v)
  /\ (forall v x, SoundSubFormat.try_from v = Some x <-> SoundSubFormat.to_i64 x = v).
Proof.
  repeat split; intros H;
    first [ destruct x; subst; reflexivity
          | revert H; unfold Gender.try_from, MaritalStatus.try_from, PhotoFormat.try_from,
              BiometricFormat.try_from, SoundSubFormat.try_from; try_from_cases v;
            intros Hsome; try discriminate; injection Hsome as <-; reflexivity ].
Qed.

(** X3 — [ImageSubFormat] and [TemplateSubFormat]: whatever [try_from]
    accepts is written back to the same code, but a value is read back as
    itself only if it is not a [VendorSpecific] code outside [100..200]
    (e.g. [VendorSpecific 5] is written as [5] and read back as [Tiff]). *)
Theorem vendor_sub_format_round_trip :
  (forall v x, ImageSubFormat.try_from v = Some x -> ImageSubFormat.to_i64 x = v)
  /\ (forall x, ImageSubFormat.try_from (ImageSubFormat.to_i64 x) = Some x
                <-> forall w, x = ImageSubFormat.VendorSpecific w -> 100 <= w <= 200)
  /\ (forall v x, TemplateSubFormat.try_from v = Some x -> TemplateSubFormat.to_i64 x = v)
  /\ (forall x, TemplateSubFormat.try_from (TemplateSubFormat.to_i64 x) = Some x
                <-> forall w, x = TemplateSubFormat.VendorSpecific w -> 100 <= w <= 200).
Proof.
  refine (conj _ (conj (fun x => conj _ _) (conj _ (fun x => conj _ _)))).
  - intros v x. unfold ImageSubFormat.try_from. try_from_cases v;
      intros Hsome; try discriminate; injection Hsome as <-; reflexivity.
  - intros Hx w ->. revert Hx. simpl. unfold ImageSubFormat.try_from. try_from_cases w;
      intros Hsome; try discriminate; try lia; injection Hsome as Hw; lia.
  - intros Hx. destruct x; try reflexivity.
    specialize (Hx v eq_refl). simpl. unfold ImageSubFormat.try_from.
    try_from_cases v; try lia; reflexivity.
  - intros v x. unfold TemplateSubFormat.try_from. try_from_cases v;
      intros Hsome; try discriminate; injection Hsome as <-; reflexivity.
  - intros Hx w ->. revert Hx. simpl. unfold TemplateSubFormat.try_from. try_from_cases w;
      intros Hsome; try discriminate; try lia; injection Hsome as Hw; lia.
  - intros Hx. destruct x; try reflexivity.
    specialize (Hx v eq_refl). simpl. unfold TemplateSubFormat.try_from.
    try_from_cases v; try lia; reflexivity.
Qed.

(** X4 — [BiometricSubFormat::from_format_and_value] never changes the
    value: [to_value] gives back the raw sub-format code for every format. *)
Theorem sub_format_to_value_from_format f v :
  BiometricSubFormat.to_value (BiometricSubFormat.from_format_and_value f v) = v.
Proof.
  destruct f; simpl; try reflexivity;
    match goal with |- context [?t v] => destruct (t v) eqn:E; simpl; [revert E|reflexivity] end;
    unfold ImageSubFormat.try_from, TemplateSubFormat.try_from, SoundSubFormat.try_from;
    try_from_cases v; intros Hsome; try discriminate; injection Hsome as <-; reflexivity.
Qed.

Lemma vendor_sub_format_round_trip_witness :
  ImageSubFormat.try_from 5 = Some ImageSubFormat.Tiff
  /\ ImageSubFormat.to_i64 ImageSubFormat.Tiff = 5
  /\ ImageSubFormat.try_from (ImageSubFormat.to_i64 (ImageSubFormat.VendorSpecific 5))
     <> Some (ImageSubFormat.VendorSpecific 5).
Proof.
  split; [reflexivity|split].
  - exact (proj1 vendor_sub_format_round_trip 5 ImageSubFormat.Tiff eq_refl).
  - intros H.
    pose proof (proj1 (proj1 (proj2 vendor_sub_format_round_trip) _) H 5 eq_refl). lia.
Defined.

(* ------------------------------------------------------------------ *)
(** ** Skipping biometrics; [has_biometrics] and [biometric_count] *)

Lemma clear_biometrics_set_biometric c i b :
  clear_biometrics (set_biometric c i b) = clear_biometrics c.
Proof. destruct c; reflexivity. Qed.

Lemma clear_biometrics_set_demographic c i v :
  clear_biometrics (set_demographic c i v) = set_demographic (clear_biometrics c) i v.
Proof. destruct c; reflexivity. Qed.

Lemma clear_biometrics_set_unknown_fields c u :
  clear_biometrics (set_unknown_fields c u) = set_unknown_fields (clear_biometrics c) u.
Proof. destruct c; reflexivity. Qed.

Lemma transform_entries_skip entries claim uf :
  transform_entries true entries (clear_biometrics claim) uf
  = let? r := transform_entries false entries claim uf in Ok (clear_biometrics (fst r), snd r).
Proof.
  revert claim uf. induction entries as [|[key val] rest IH]; intros claim uf; [reflexivity|].
  simpl. destruct key; try reflexivity.
  destruct (in_i64 i); [|reflexivity].
  destruct ((1 <=? i) && (i <=? 23)).
  - rewrite <- clear_biometrics_set_demographic. apply IH.
  - destruct ((50 <=? i) && (i <=? 65)).
    + rewrite <- (clear_biometrics_set_biometric claim i (extract_biometrics val)). apply IH.
    + destruct (cbor_to_json val); apply IH.
Qed.

(** X5 — [transform] with [skip_biometrics] set fails exactly when it
    fails without it, with the same error, and otherwise gives the same
    claim with its sixteen biometric slots emptied: skipped biometric keys
    do not land in [unknown_fields] either. *)
Theorem transform_skip_biometrics_clears v :
  transform v true = (let? c := transform v false in Ok (clear_biometrics c)).
Proof.
  destruct v; try reflexivity. unfold transform.
  change Claim169.default with (clear_biometrics Claim169.default) at 1.
  rewrite transform_entries_skip.
  destruct (transform_entries false entries Claim169.default ∅) as [[c u]|e]; simpl;
    [rewrite clear_biometrics_set_unknown_fields|]; reflexivity.
Qed.

Lemma has_biometrics_slots c :
  has_biometrics c = existsb is_some (biometric_slots c).
Proof.
  unfold has_biometrics, biometric_slots. simpl. rewrite ?orb_false_r, ?orb_assoc. reflexivity.
Qed.

Lemma biometric_count_slots c :
  biometric_count c = sum_list (map count_opt (biometric_slots c)).
Proof. unfold biometric_count, biometric_slots. simpl. lia. Qed.

Lemma has_biometrics_count_slots (slots : list (option (list Biometric.t))) :
  Forall (fun slot => slot <> Some []) slots ->
  existsb is_some slots = true <-> (0 < sum_list (map count_opt slots))%nat.
Proof.
  induction 1 as [|o slots Ho _ IH]; simpl; [split; [discriminate|lia]|].
  rewrite orb_true_iff, IH. destruct o as [[|b l]|]; simpl; try congruence; split; intros; try lia.
Qed.

(** X6 — on a claim produced by [transform], [has_biometrics] is true
    exactly when [biometric_count] is positive (no slot holds an empty
    list), and with [skip_biometrics] both report no biometrics. *)
Theorem transform_has_biometrics_count v skip c :
  transform v skip = Ok c ->
  (has_biometrics c = true <-> (0 < biometric_count c)%nat)
  /\ (skip = true -> has_biometrics c = false /\ biometric_count c = 0%nat).
Proof.
  intros H. split.
  - rewrite has_biometrics_slots, biometric_count_slots.
    apply has_biometrics_count_slots.
    unfold transform in H. destruct v; try discriminate.
    apply bind_result_Ok in H as ([c' u] & H & [= <-]).
    change (Forall (fun slot => slot <> Some []) (biometric_slots c')).
    refine (transform_entries_slots _ skip entries Claim169.default ∅ c' u
              extract_biometrics_not_empty _ H).
    repeat constructor; discriminate.
  - intros ->. unfold transform in H. destruct v; try discriminate.
    change Claim169.default with (clear_biometrics Claim169.default) in H at 1.
    rewrite transform_entries_skip in H.
    destruct (transform_entries false entries Claim169.default ∅) as [[c0 u]|e];
      simpl in H; [|discriminate].
    injection H as <-. destruct c0; split; reflexivity.
Qed.

Lemma transform_has_biometrics_count_witness :
  transform (Map [(Integer 62, Array [Map [(Integer 0, Bytes [Byte.x01])]])]) true
    = Ok Claim169.default
  /\ has_biometrics Claim169.default = false.
Proof.
  assert (H : transform (Map [(Integer 62, Array [Map [(Integer 0, Bytes [Byte.x01])]])]) true
              = Ok Claim169.default) by reflexivity.
  split; [exact H|].
  exact (proj1 (proj2 (transform_has_biometrics_count _ true Claim169.default H) eq_refl)).
Defined.

(* ------------------------------------------------------------------ *)
(** ** X.509 headers *)

Lemma x509_step_int h i v :
  x509_step h (LInt i, v)
  = if i =? 32 then
      match x5bag h with
      | None => mkX509 (parse_x509_certs v) (x5chain h) (x5t h) (x5u h)
      | Some _ => h
      end
    else if i =? 33 then
      match x5chain h with
      | None => mkX509 (x5bag h) (parse_x509_certs v) (x5t h) (x5u h)
      | Some _ => h
      end
    else if i =? 34 then
      match x5t h with
      | None => mkX509 (x5bag h) (x5chain h) (parse_cert_hash v) (x5u h)
      | Some _ => h
      end
    else if i =? 35 then
      match x5u h, v with
      | None, Text uri => mkX509 (x5bag h) (x5chain h) (x5t h) (Some uri)
      | _, _ => h
      end
    else h.
Proof.
  destruct i as [|p|p]; try reflexivity.
  do 6 (try destruct p as [p|p|]); reflexivity.
Qed.

Lemma x509_fold_fields l h :
  x5bag (fold_left x509_step l h)
    = match x5bag h with Some b => Some b | None => first_some (label_sel 32 parse_x509_certs) l end
  /\ x5chain (fold_left x509_step l h)
    = match x5chain h with Some b => Some b | None => first_some (label_sel 33 parse_x509_certs) l end
  /\ x5t (fold_left x509_step l h)
    = match x5t h with Some b => Some b | None => first_some (label_sel 34 parse_cert_hash) l end
  /\ x5u (fold_left x509_step l h)
    = match x5u h with Some b => Some b | None => first_some (label_sel 35 uri_of) l end.
Proof.
  revert h. induction l as [|[lab v] l IH]; intros h; cbn [fold_left first_some].
  - destruct (x5bag h), (x5chain h), (x5t h), (x5u h); repeat split.
  - destruct (IH (x509_step h (lab, v))) as (I1 & I2 & I3 & I4).
    rewrite I1, I2, I3, I4. clear I1 I2 I3 I4 IH.
    destruct h as [hb hc ht hu].
    destruct lab as [i|s]; [rewrite x509_step_int; unfold label_sel; simpl|].
    + destruct (Z.eqb_spec i 32) as [->|?]; [destruct hb; simpl; repeat split|].
      destruct (Z.eqb_spec i 33) as [->|?]; [destruct hc; simpl; repeat split|].
      destruct (Z.eqb_spec i 34) as [->|?]; [destruct ht; simpl; repeat split|].
      destruct (Z.eqb_spec i 35) as [->|?]; [destruct hu, v; simpl; repeat split|].
      simpl; repeat split.
    + repeat split.
Qed.

(** X7 — [get_x509_headers] sets each of [x5bag], [x5chain], [x5t] and
    [x5u] from the first entry under its label (protected entries before
    unprotected ones) whose value parses; an entry that does not parse is
    passed over, so a malformed protected value does not hide a valid
    unprotected one. *)
Theorem get_x509_headers_first_parsed protected unprotected :
  let entries := Header.rest protected ++ Header.rest unprotected in
  let h := get_x509_headers protected unprotected in
  x5bag h = first_some (label_sel 32 parse_x509_certs) entries
  /\ x5chain h = first_some (label_sel 33 parse_x509_certs) entries
  /\ x5t h = first_some (label_sel 34 parse_cert_hash) entries
  /\ x5u h = first_some (label_sel 35 uri_of) entries.
Proof.
  intros entries h. unfold h, get_x509_headers.
  exact (x509_fold_fields entries X509Headers_default).
Qed.

(* ------------------------------------------------------------------ *)
(** ** The library entry points *)

Section ApiProps.
  Context (base45_decode : string -> Result bytes)
          (zlib_reads brotli_reads : bytes -> list ReadResult) (compression_brotli : bool)
          (cbor_decode : bytes -> option Value) (cbor_encode : Value -> bytes)
          (header_of_value : Value -> option Header.t) (tbs_data : CoseSign1.t -> bytes)
          (crypto_into : CryptoError -> Claim169Error)
          (crypto_to_string : CryptoError -> string)
          (cwt_parse : bytes -> Result CwtResult).

Local Abbreviation parse_and_verify :=
    (parse_and_verify cbor_decode cbor_encode header_of_value tbs_data crypto_into
       crypto_to_string).
Local Abbreviation decode :=
    (Lib.decode base45_decode zlib_reads brotli_reads compression_brotli cbor_decode
       cbor_encode header_of_value tbs_data crypto_into crypto_to_string cwt_parse).

Lemma parse_and_verify_no_keys data cose_result :
    parse_and_verify data None None = Ok cose_result ->
    verification_status cose_result = Skipped.
  Proof.
    unfold parse_and_verify. cbn [parse_and_verify_fuel].
    assert (HS : forall s, process_sign1 tbs_data crypto_into s None = Ok cose_result ->
                           verification_status cose_result = Skipped).
    { intros s. unfold process_sign1. destruct (CoseSign1.payload s); simpl; [|discriminate].
      intros [= <-]. reflexivity. }
    repeat match goal with
           | |- context [match ?x with _ => _ end] => destruct x
           end; try discriminate; try exact (HS _); reflexivity.
  Qed.

(** X8 — [decode], which passes neither a verifier nor a decryptor,
    succeeds only when [allow_unverified] is set, and its result is then
    always [Skipped]. *)
Theorem decode_requires_allow_unverified qr_text options now r :
    decode qr_text options now = Ok r ->
    DecodeOptions.allow_unverified options = true
    /\ DecodeResult.verification_status r = Skipped.
  Proof.
    intros H. unfold Lib.decode in H.
    destruct (decode_internal_Ok _ _ _ _ _ _ _ _ _ _ _ _ _ _ _ _ _ H)
      as (compressed & d & cr & cw & c & _ & _ & Hp & Hgate & _ & _ & _ & _ & Hst).
    apply parse_and_verify_no_keys in Hp.
    rewrite Hst, Hp. split; [|reflexivity].
    destruct (DecodeOptions.allow_unverified options); [reflexivity|].
    exfalso. exact (Hgate eq_refl Hp).
  Qed.

Local Abbreviation inner_sign1 := (inner_sign1 cbor_decode header_of_value).
Local Abbreviation sign1_from_tagged_slice := (sign1_from_tagged_slice cbor_decode header_of_value).
Local Abbreviation sign1_from_slice := (sign1_from_slice cbor_decode header_of_value).
Local Abbreviation encrypt0_from_tagged_slice :=
    (encrypt0_from_tagged_slice cbor_decode header_of_value).
Local Abbreviation encrypt0_from_slice := (encrypt0_from_slice cbor_decode header_of_value).
Local Abbreviation finish_encrypt0 := (finish_encrypt0 cbor_decode header_of_value).
Local Abbreviation process_sign1_with_resolver :=
    (process_sign1_with_resolver tbs_data crypto_into crypto_to_string).
Local Abbreviation parse_with_resolver_fuel :=
    (parse_with_resolver_fuel cbor_decode cbor_encode header_of_value tbs_data crypto_into
       crypto_to_string).
Local Abbreviation parse_with_resolver :=
    (parse_with_resolver cbor_decode cbor_encode header_of_value tbs_data crypto_into
       crypto_to_string).

Lemma process_sign1_with_resolver_not_skipped s resolver cr :
    process_sign1_with_resolver s resolver = Ok cr -> verification_status cr <> Skipped.
  Proof.
    unfold process_sign1_with_resolver.
    destruct (CoseSign1.payload s); simpl; [|discriminate].
    destruct (get_algorithm (sign1_protected s)); simpl; [|discriminate].
    destruct (resolve_verifier resolver _ _) as [v|e]; simpl; [|discriminate].
    destruct (v _ _ _ _) as [_|[]]; simpl; try discriminate; intros [= <-]; discriminate.
  Qed.

Lemma parse_with_resolver_fuel_sign1 n data resolver s :
    inner_sign1 data = Some s ->
    parse_with_resolver_fuel (S n) data resolver = process_sign1_with_resolver s resolver.
  Proof.
    unfold inner_sign1. cbn [parse_with_resolver_fuel].
    destruct (sign1_from_tagged_slice data) as [s'|] eqn:Ht.
    - intros [= ->]. reflexivity.
    - intros Hs. rewrite Hs.
      unfold encrypt0_from_tagged_slice.
      unfold sign1_from_slice in Hs.
      destruct (cbor_decode data) as [v|]; simpl in *; [|discriminate].
      destruct v; try discriminate. reflexivity.
  Qed.

Lemma finish_encrypt0_resolver_skipped plaintext resolver alg kid x509 cr :
    finish_encrypt0 (parse_with_resolver_fuel 1 plaintext resolver) plaintext alg kid x509
      = Ok cr ->
    verification_status cr = Skipped ->
    inner_sign1 plaintext = None /\ payload cr = plaintext.
  Proof.
    destruct (inner_sign1 plaintext) as [s|] eqn:Hi.
    - rewrite (parse_with_resolver_fuel_sign1 0 plaintext resolver s Hi).
      unfold finish_encrypt0.
      replace (bool_decide (is_Some (sign1_from_tagged_slice plaintext))
               || bool_decide (is_Some (sign1_from_slice plaintext)))
        with true.
      2:{ unfold inner_sign1 in Hi. symmetry.
          destruct (sign1_from_tagged_slice plaintext); [reflexivity|].
          rewrite Hi. reflexivity. }
      destruct (process_sign1_with_resolver s resolver) as [r|e] eqn:Hp.
      + intros [= <-] Hs. exfalso. exact (process_sign1_with_resolver_not_skipped _ _ _ Hp Hs).
      + destruct e; try discriminate. intros [= <-]. discriminate.
    - unfold finish_encrypt0.
      replace (bool_decide (is_Some (sign1_from_tagged_slice plaintext))
               || bool_decide (is_Some (sign1_from_slice plaintext)))
        with false.
      2:{ unfold inner_sign1 in Hi. symmetry.
          destruct (sign1_from_tagged_slice plaintext); [discriminate|].
          rewrite Hi. reflexivity. }
      intros [= <-] _. split; reflexivity.
  Qed.

Lemma process_encrypt0_resolver_skipped e resolver cr :
    process_encrypt0_with_resolver_with cbor_decode cbor_encode header_of_value crypto_to_string
      (parse_with_resolver_fuel 1) e resolver = Ok cr ->
    verification_status cr = Skipped ->
    inner_sign1 (payload cr) = None.
  Proof.
    unfold process_encrypt0_with_resolver_with. cbv zeta. intros H Hs.
    apply bind_result_Ok in H as (alg & _ & H).
    apply bind_result_Ok in H as (d & _ & H).
    apply bind_result_Ok in H as (nonce & _ & H).
    apply bind_result_Ok in H as (ct & _ & H).
    apply bind_result_Ok in H as (plaintext & _ & H).
    destruct (finish_encrypt0_resolver_skipped _ _ _ _ _ _ H Hs) as [Hi ->].
    exact Hi.
  Qed.

Lemma parse_with_resolver_skipped data resolver cr :
    parse_with_resolver data resolver = Ok cr ->
    verification_status cr = Skipped ->
    inner_sign1 data = None /\ inner_sign1 (payload cr) = None.
  Proof.
    unfold parse_with_resolver, inner_sign1. cbn [parse_with_resolver_fuel].
    intros H Hs.
    destruct (sign1_from_tagged_slice data) as [s|] eqn:E1.
    { exfalso. exact (process_sign1_with_resolver_not_skipped _ _ _ H Hs). }
    destruct (encrypt0_from_tagged_slice data) as [e|] eqn:E2.
    - split.
      + unfold encrypt0_from_tagged_slice, sign1_from_slice in *.
        destruct (cbor_decode data) as [v|]; simpl in *; [|discriminate].
        destruct v; try discriminate. reflexivity.
      + exact (process_encrypt0_resolver_skipped e resolver cr H Hs).
    - destruct (sign1_from_slice data) as [s|] eqn:E3.
      { exfalso. exact (process_sign1_with_resolver_not_skipped _ _ _ H Hs). }
      destruct (encrypt0_from_slice data) as [e|] eqn:E4;
        [|discriminate].
      split; [reflexivity|].
      exact (process_encrypt0_resolver_skipped e resolver cr H Hs).
  Qed.

Local Abbreviation decompress := (decompress zlib_reads brotli_reads compression_brotli).
Local Abbreviation decode_with_resolver :=
    (Lib.decode_with_resolver base45_decode zlib_reads brotli_reads compression_brotli
       cbor_decode cbor_encode header_of_value tbs_data crypto_into crypto_to_string cwt_parse).

(** X9 — a successful [decode_with_resolver] is [Verified], or it is
    [Skipped] with [allow_unverified] set; the latter only when the
    decompressed bytes are a COSE_Encrypt0 (not a Sign1) whose plaintext is
    not a COSE_Sign1 either. *)
Theorem decode_with_resolver_gate qr_text resolver options now r :
    decode_with_resolver qr_text resolver options now = Ok r ->
    DecodeResult.verification_status r = Verified
    \/ (DecodeResult.verification_status r = Skipped
        /\ DecodeOptions.allow_unverified options = true
        /\ exists compressed d cose_result,
             base45_decode qr_text = Ok compressed
             /\ decompress compressed (DecodeOptions.max_decompressed_bytes options) = Ok d
             /\ parse_with_resolver (fst d) resolver = Ok cose_result
             /\ inner_sign1 (fst d) = None
             /\ inner_sign1 (payload cose_result) = None).
  Proof.
    unfold Lib.decode_with_resolver, Lib.decode_with_resolver_internal. intros H.
    apply bind_result_Ok in H as (compressed & Hb & H).
    apply bind_result_Ok in H as (d & Hd & H).
    apply bind_result_Ok in H as (cr & Hc & H).
    assert (Hr : DecodeResult.verification_status r = verification_status cr).
    { destruct (DecodeOptions.allow_unverified options), (verification_status cr);
        simpl in H; try discriminate;
        apply bind_result_Ok in H as (cw & _ & H);
        apply bind_result_Ok in H as (ws & _ & H);
        apply bind_result_Ok in H as (c & _ & H);
        injection H as <-; reflexivity. }
    rewrite Hr.
    destruct (verification_status cr) eqn:Hs; [left; reflexivity| |].
    - destruct (DecodeOptions.allow_unverified options); simpl in H; discriminate.
    - right. split; [reflexivity|].
      destruct (DecodeOptions.allow_unverified options) eqn:Ha; simpl in H; [|discriminate].
      split; [reflexivity|].
      destruct (parse_with_resolver_skipped _ _ _ Hc Hs) as [H1 H2].
      exists compressed, d, cr. repeat split; assumption.
  Qed.
End ApiProps.

(* ------------------------------------------------------------------ *)
(** ** Clock skew, warnings and the expiry computation *)

Lemma check_timestamps_more_skew m now k s u :
  check_timestamps m now k = Ok u ->
  k <= s ->
  in_i64 (now + k) = true -> in_i64 (now + s) = true ->
  (forall exp, expires_at m = Some exp -> in_i64 (exp + k) = true /\ in_i64 (exp + s) = true) ->
  check_timestamps m now s = Ok tt.
Proof.
  intros H Hks Hk Hs He.
  rewrite (check_timestamps_no_overflow m now k Hk (fun e E => proj1 (He e E))) in H.
  rewrite (check_timestamps_no_overflow m now s Hs (fun e E => proj2 (He e E))).
  destruct (expires_at m) as [exp|].
  - destruct (Z.ltb_spec exp (now - k)); simpl in H; [discriminate|].
    destruct (Z.ltb_spec exp (now - s)); [lia|]. simpl.
    destruct (not_before m) as [nbf|]; [|reflexivity].
    destruct (Z.ltb_spec (now + k) nbf); [discriminate|].
    destruct (Z.ltb_spec (now + s) nbf); [lia|reflexivity].
  - simpl in *. destruct (not_before m) as [nbf|]; [|reflexivity].
    destruct (Z.ltb_spec (now + k) nbf); [discriminate|].
    destruct (Z.ltb_spec (now + s) nbf); [lia|reflexivity].
Qed.

Lemma wrap_i64_overflow x : 2 ^ 63 <= x < 2 ^ 63 + 2 ^ 64 -> wrap_i64 x = x - 2 ^ 64.
Proof.
  intros Hx. unfold wrap_i64.
  rewrite <- (Z.mod_unique (x + 2 ^ 63) (2 ^ 64) 1 (x + 2 ^ 63 - 2 ^ 64)); lia.
Qed.

Lemma check_timestamps_overflow_expired m now skew exp :
  expires_at m = Some exp -> exp < 2 ^ 63 -> 0 <= skew < 2 ^ 63 -> 2 ^ 63 <= exp + skew ->
  0 <= now -> check_timestamps m now skew = Err (Expired exp).
Proof.
  intros He Hexp Hs Ho Hn. unfold check_timestamps. rewrite He.
  rewrite wrap_i64_overflow by lia.
  destruct (Z.gtb_spec now (exp + skew - 2 ^ 64)); [reflexivity|lia].
Qed.

Section SkewProps.
  Context (base45_decode : string -> Result bytes)
          (zlib_reads brotli_reads : bytes -> list ReadResult) (compression_brotli : bool)
          (cbor_decode : bytes -> option Value) (cbor_encode : Value -> bytes)
          (header_of_value : Value -> option Header.t) (tbs_data : CoseSign1.t -> bytes)
          (crypto_into : CryptoError -> Claim169Error)
          (crypto_to_string : CryptoError -> string)
          (cwt_parse : bytes -> Result CwtResult).

Local Abbreviation decode_internal :=
    (decode_internal base45_decode zlib_reads brotli_reads compression_brotli cbor_decode
       cbor_encode header_of_value tbs_data crypto_into crypto_to_string cwt_parse).

(** X10 — raising the clock-skew tolerance never turns a successful decode
    into a failure: the same result comes back (while the timestamp sums
    stay inside i64). *)
Theorem decode_internal_more_skew qr_text verifier decryptor options now r s :
    decode_internal qr_text verifier decryptor options now = Ok r ->
    DecodeOptions.clock_skew_tolerance_seconds options <= s ->
    0 <= s ->
    in_i64 (now + DecodeOptions.clock_skew_tolerance_seconds options) = true ->
    in_i64 (now + s) = true ->
    (forall exp, expires_at (DecodeResult.cwt_meta r) = Some exp ->
       in_i64 (exp + DecodeOptions.clock_skew_tolerance_seconds options) = true
       /\ in_i64 (exp + s) = true) ->
    decode_internal qr_text verifier decryptor
      (DecodeOptions.with_clock_skew_tolerance options s) now = Ok r.
  Proof.
    intros H Hks Hs0 Hk Hs He.
    unfold decode_internal in *.
    cbn [DecodeOptions.with_clock_skew_tolerance DecodeOptions.max_decompressed_bytes
         DecodeOptions.allow_unverified DecodeOptions.validate_timestamps
         DecodeOptions.skip_biometrics DecodeOptions.clock_skew_tolerance_seconds].
    rewrite Z.max_l by lia.
    apply bind_result_Ok in H as (c & Hb & H). rewrite Hb. cbn [bind_result].
    apply bind_result_Ok in H as (d & Hd & H). rewrite Hd. cbn [bind_result].
    apply bind_result_Ok in H as (cr & Hc & H). rewrite Hc. cbn [bind_result].
    destruct (negb (DecodeOptions.allow_unverified options) && _); [discriminate|].
    destruct (VerificationStatus_eqb _ Failed); [discriminate|].
    apply bind_result_Ok in H as (cw & Hw & H). rewrite Hw. cbn [bind_result].
    destruct (DecodeOptions.validate_timestamps options); [|exact H].
    apply bind_result_Ok in H as (ws & Hws & H).
    apply bind_result_Ok in Hws as (u & Hct & [= <-]).
    assert (Hm : meta cw = DecodeResult.cwt_meta r).
    { apply bind_result_Ok in H as (c' & _ & H). injection H as <-. reflexivity. }
    rewrite (check_timestamps_more_skew _ _ _ _ _ Hct Hks Hk Hs); [exact H|].
    rewrite Hm. exact He.
  Qed.

(** X11 — the warnings of a successful decode are, in order:
    [TimestampValidationSkipped] when timestamps are not validated,
    [BiometricsSkipped] when biometrics are skipped, and [UnknownFields]
    when the claim kept unknown fields; nothing else. *)
Theorem decode_internal_warnings qr_text verifier decryptor options now r :
    decode_internal qr_text verifier decryptor options now = Ok r ->
    map code (DecodeResult.warnings r)
    = (if DecodeOptions.validate_timestamps options then [] else [TimestampValidationSkipped])
      ++ (if DecodeOptions.skip_biometrics options then [BiometricsSkipped] else [])
      ++ (if Nat.eqb (size (Claim169.unknown_fields (DecodeResult.claim169 r))) 0 then []
          else [UnknownFields]).
  Proof.
    unfold decode_internal. intros H.
    apply bind_result_Ok in H as (compressed & _ & H).
    apply bind_result_Ok in H as (d & _ & H).
    apply bind_result_Ok in H as (cr & _ & H).
    destruct (_ && _); [discriminate|].
    destruct (VerificationStatus_eqb _ _); [discriminate|].
    apply bind_result_Ok in H as (cw & _ & H).
    apply bind_result_Ok in H as (ws & Hws & H).
    apply bind_result_Ok in H as (c & _ & H).
    injection H as <-. simpl.
    assert (Hw : map code ws
                 = if DecodeOptions.validate_timestamps options then []
                   else [TimestampValidationSkipped]).
    { destruct (DecodeOptions.validate_timestamps options).
      - apply bind_result_Ok in Hws as (u & _ & [= <-]). reflexivity.
      - injection Hws as <-. reflexivity. }
    destruct (Nat.eqb _ 0); destruct (DecodeOptions.skip_biometrics options);
      rewrite ?map_app, Hw; simpl; rewrite ?app_nil_r, <- ?app_assoc; reflexivity.
  Qed.

(** X12 — without timestamp validation the decode does not depend on the
    current time. *)
Theorem decode_internal_no_clock qr_text verifier decryptor options now now' :
    DecodeOptions.validate_timestamps options = false ->
    decode_internal qr_text verifier decryptor options now
    = decode_internal qr_text verifier decryptor options now'.
  Proof.
    intros Hv. unfold decode_internal. rewrite Hv. reflexivity.
  Qed.

Local Abbreviation decompress := (decompress zlib_reads brotli_reads compression_brotli).
Local Abbreviation parse_and_verify :=
    (parse_and_verify cbor_decode cbor_encode header_of_value tbs_data crypto_into
       crypto_to_string).

(** X13 — the expiry check adds [exp + skew] in i64, which wraps in a
    release build: a credential whose [exp] plus the skew tolerance passes
    [i64::MAX] is reported [Expired exp] at any non-negative current time. *)
Theorem decode_internal_expiry_overflow qr_text verifier decryptor options now
      compressed d cose_result cwt_result exp :
    base45_decode qr_text = Ok compressed ->
    decompress compressed (DecodeOptions.max_decompressed_bytes options) = Ok d ->
    parse_and_verify (fst d) verifier decryptor = Ok cose_result ->
    verification_status cose_result <> Failed ->
    (verification_status cose_result = Skipped -> DecodeOptions.allow_unverified options = true) ->
    cwt_parse (payload cose_result) = Ok cwt_result ->
    DecodeOptions.validate_timestamps options = true ->
    expires_at (meta cwt_result) = Some exp ->
    exp < 2 ^ 63 ->
    0 <= DecodeOptions.clock_skew_tolerance_seconds options < 2 ^ 63 ->
    2 ^ 63 <= exp + DecodeOptions.clock_skew_tolerance_seconds options ->
    0 <= now ->
    decode_internal qr_text verifier decryptor options now = Err (Expired exp).
  Proof.
    intros Hb Hd Hc Hf Hs Hw Hv He Hexp Hsk Ho Hn.
    apply (proj1 (decode_internal_after_cwt _ _ _ _ _ _ _ _ _ _ _ qr_text verifier decryptor
                    options now compressed d cose_result cwt_result Hb Hd Hc Hf Hs Hw Hv
                    (Expired exp))).
    apply check_timestamps_overflow_expired; assumption.
  Qed.
End SkewProps.

(* ------------------------------------------------------------------ *)
(** ** Witnesses for the entry-point properties *)

Lemma decode_requires_allow_unverified_witness :
  exists r,
    Lib.decode toy_base45_decode (fun _ => []) (fun _ => []) false toy_cbor_decode
      toy_cbor_encode toy_header_of_value toy_tbs_data toy_crypto_into toy_crypto_to_string
      (toy_cwt_parse toy_meta0 (Map [])) "toy"%string DecodeOptions.permissive 0 = Ok r
    /\ DecodeOptions.allow_unverified DecodeOptions.permissive = true
    /\ DecodeResult.verification_status r = Skipped.
Proof.
  destruct (Lib.decode toy_base45_decode (fun _ => []) (fun _ => []) false toy_cbor_decode
      toy_cbor_encode toy_header_of_value toy_tbs_data toy_crypto_into toy_crypto_to_string
      (toy_cwt_parse toy_meta0 (Map [])) "toy"%string DecodeOptions.permissive 0) as [r|e] eqn:E.
  - exists r. split; [reflexivity|].
    exact (decode_requires_allow_unverified toy_base45_decode (fun _ => []) (fun _ => []) false
             toy_cbor_decode toy_cbor_encode toy_header_of_value toy_tbs_data toy_crypto_into
             toy_crypto_to_string (toy_cwt_parse toy_meta0 (Map [])) "toy"%string
             DecodeOptions.permissive 0 r E).
  - vm_compute in E. discriminate.
Defined.

Lemma decode_with_resolver_gate_witness :
  exists r,
    Lib.decode_with_resolver toy_base45_decode (fun _ => []) (fun _ => []) false
      toy_cbor_decode toy_cbor_encode toy_header_of_value toy_tbs_data toy_crypto_into
      toy_crypto_to_string (toy_cwt_parse toy_meta0 (Map [])) "toy"%string toy_resolver
      DecodeOptions.default 0 = Ok r
    /\ DecodeResult.verification_status r = Verified.
Proof.
  destruct (Lib.decode_with_resolver toy_base45_decode (fun _ => []) (fun _ => []) false
      toy_cbor_decode toy_cbor_encode toy_header_of_value toy_tbs_data toy_crypto_into
      toy_crypto_to_string (toy_cwt_parse toy_meta0 (Map [])) "toy"%string toy_resolver
      DecodeOptions.default 0) as [r|e] eqn:E.
  - exists r. split; [reflexivity|].
    destruct (decode_with_resolver_gate toy_base45_decode (fun _ => []) (fun _ => []) false
                toy_cbor_decode toy_cbor_encode toy_header_of_value toy_tbs_data toy_crypto_into
                toy_crypto_to_string (toy_cwt_parse toy_meta0 (Map [])) "toy"%string
                toy_resolver DecodeOptions.default 0 r E) as [Hv|(_ & Ha & _)];
      [exact Hv|discriminate Ha].
  - vm_compute in E. discriminate.
Defined.

Lemma decode_internal_more_skew_witness :
  let m := mkCwtMeta None None (Some 990) None None in
  toy_decode m (Map []) (Some toy_verifier) DecodeOptions.default 980
  = toy_decode m (Map []) (Some toy_verifier)
      (DecodeOptions.with_clock_skew_tolerance DecodeOptions.default 60) 980
  /\ exists r, toy_decode m (Map []) (Some toy_verifier) DecodeOptions.default 980 = Ok r.
Proof.
  intros m.
  destruct (toy_decode m (Map []) (Some toy_verifier) DecodeOptions.default 980) as [r|e] eqn:E.
  - pose proof E as E'. vm_compute in E'. injection E' as Er. subst r.
    split; [|eexists; reflexivity].
    symmetry.
    refine (decode_internal_more_skew toy_base45_decode (fun _ => []) (fun _ => []) false
              toy_cbor_decode toy_cbor_encode toy_header_of_value toy_tbs_data toy_crypto_into
              toy_crypto_to_string (toy_cwt_parse m (Map [])) "toy"%string (Some toy_verifier)
              None DecodeOptions.default 980 _ 60 E _ _ _ _ _).
    + vm_compute. discriminate.
    + lia.
    + reflexivity.
    + reflexivity.
    + simpl. intros exp [= <-]. split; reflexivity.
  - vm_compute in E. discriminate.
Defined.

Lemma decode_internal_warnings_witness :
  exists r,
    toy_decode toy_meta0 (Map [(Integer 99, Integer 1)]) None DecodeOptions.permissive 0 = Ok r
    /\ map code (DecodeResult.warnings r) = [TimestampValidationSkipped; UnknownFields].
Proof.
  destruct (toy_decode toy_meta0 (Map [(Integer 99, Integer 1)]) None DecodeOptions.permissive 0)
    as [r|e] eqn:E.
  - pose proof E as E'. vm_compute in E'. injection E' as Er. subst r.
    eexists. split; [reflexivity|].
    rewrite (decode_internal_warnings toy_base45_decode (fun _ => []) (fun _ => []) false
               toy_cbor_decode toy_cbor_encode toy_header_of_value toy_tbs_data toy_crypto_into
               toy_crypto_to_string (toy_cwt_parse toy_meta0 (Map [(Integer 99, Integer 1)]))
               "toy"%string None None DecodeOptions.permissive 0 _ E).
    vm_compute. reflexivity.
  - vm_compute in E. discriminate.
Defined.

Lemma decode_internal_no_clock_witness :
  let m := mkCwtMeta None None (Some 990) None None in
  toy_decode m (Map []) (Some toy_verifier) DecodeOptions.permissive 0
  = toy_decode m (Map []) (Some toy_verifier) DecodeOptions.permissive 5000.
Proof.
  intros m.
  exact (decode_internal_no_clock toy_base45_decode (fun _ => []) (fun _ => []) false
           toy_cbor_decode toy_cbor_encode toy_header_of_value toy_tbs_data toy_crypto_into
           toy_crypto_to_string (toy_cwt_parse m (Map [])) "toy"%string (Some toy_verifier)
           None DecodeOptions.permissive 0 5000 eq_refl).
Defined.

Lemma decode_internal_expiry_overflow_witness :
  let m := mkCwtMeta None None (Some (2 ^ 63 - 1)) None None in
  toy_decode m (Map []) (Some toy_verifier)
    (DecodeOptions.with_clock_skew_tolerance DecodeOptions.default 1) 0
  = Err (Expired (2 ^ 63 - 1)).
Proof.
  intros m.
  refine (decode_internal_expiry_overflow toy_base45_decode (fun _ => []) (fun _ => []) false
            toy_cbor_decode toy_cbor_encode toy_header_of_value toy_tbs_data toy_crypto_into
            toy_crypto_to_string (toy_cwt_parse m (Map [])) "toy"%string (Some toy_verifier)
            None (DecodeOptions.with_clock_skew_tolerance DecodeOptions.default 1) 0
            [x01] ([x01], DNone)
            (mkCoseResult [x02] Verified (Some (-8)) None X509Headers_default)
            (mkCwtResult m (Map [])) (2 ^ 63 - 1)
            eq_refl eq_refl _ _ _ eq_refl eq_refl eq_refl _ _ _ _).
  - vm_compute. reflexivity.
  - simpl. discriminate.
  - simpl. discriminate.
  - lia.
  - simpl. lia.
  - simpl. lia.
  - lia.
Defined.

(* ------------------------------------------------------------------ *)
(** ** [cbor_to_json] maps, and [compress] *)

(** X14 — [cbor_to_json] on a map gives an object with no repeated key in
    which each key holds the value of the last entry whose key reads as it
    (a text key, or an integer key in decimal) and whose value has a JSON
    form: an integer key [1] and a text key ["1"] collide, and the later
    entry wins. *)
Theorem cbor_to_json_map_last_wins m :
  exists o, cbor_to_json (Map m) = Some (Json.Object o)
    /\ NoDup (map fst o)
    /\ forall k, json_get k o = json_last_entry k m.
Proof.
  exists (json_entries m []). split; [reflexivity|split].
  - apply json_entries_keys. constructor.
  - intros k. rewrite json_entries_get. reflexivity.
Qed.


Section CompressProps.
  Context (compress_zlib : bytes -> bytes) (compress_brotli : bytes -> N -> bytes).
  Context (zlib_reads brotli_reads : bytes -> list ReadResult).

Local Abbreviation compress := (compress compress_zlib compress_brotli).

(** X15 — the adaptive modes never produce output longer than the input,
    and whenever [compress] reports no compression its output is the input
    itself. *)
Theorem compress_adaptive_never_larger input :
    (length (fst (compress input Compression.Adaptive)) <= length input)%nat
    /\ (forall q, (length (fst (compress input (Compression.AdaptiveBrotli q)))
                   <= length input)%nat)
    /\ (forall mode, snd (compress input mode) = DNone -> fst (compress input mode) = input).
  Proof.
    unfold compress. refine (conj _ (conj (fun q => _) (fun mode => _))).
    - cbn zeta. destruct (Nat.ltb_spec (length (compress_zlib input)) (length input));
        simpl; lia.
    - cbn zeta. destruct (Nat.ltb_spec (length (compress_brotli input q)) (length input));
        simpl; lia.
    - destruct mode; cbn zeta; simpl; try discriminate; try reflexivity;
        match goal with |- context [Nat.ltb ?a ?b] => destruct (Nat.ltb a b) end;
        simpl; congruence.
  Qed.

(** X16 — with the [compression-brotli] feature off, and given a zlib
    codec whose output starts with [0x78] and reads back to its input,
    [decompress] undoes [compress] for every mode, giving back the input
    and the detected compression, as long as the input fits the limit and,
    when it is stored raw, does not itself start with [0x78]. *)
Theorem compress_decompress_roundtrip input mode max_bytes :
    (forall x, head (compress_zlib x) = Some x78
               /\ stream_fails (zlib_reads (compress_zlib x)) = false
               /\ stream_output (zlib_reads (compress_zlib x)) = x) ->
    (forall q, mode <> Compression.Brotli q /\ mode <> Compression.AdaptiveBrotli q) ->
    (snd (compress input mode) = DNone -> head input <> Some x78) ->
    (length input <= max_bytes)%nat ->
    decompress zlib_reads brotli_reads false (fst (compress input mode)) max_bytes
    = Ok (input, snd (compress input mode)).
  Proof.
    intros Hz Hm Hraw Hlen.
    assert (HZ : decompress zlib_reads brotli_reads false (compress_zlib input) max_bytes
                 = Ok (input, DZlib)).
    { destruct (Hz input) as (Hh & Hf & Ho).
      destruct (compress_zlib input) as [|b0 tl] eqn:Ec; [discriminate|].
      injection Hh as ->.
      rewrite (decompress_zlib_input _ _ _ _ _ x78 tl eq_refl eq_refl).
      unfold decompress_zlib. rewrite read_limited_ok by (rewrite ?Ho; assumption).
      rewrite Ho. reflexivity. }
    assert (HN : head input <> Some x78 ->
                 decompress zlib_reads brotli_reads false input max_bytes = Ok (input, DNone)).
    { intros Hh. destruct input as [|b0 tl]; [reflexivity|].
      simpl. destruct (Byte.eqb b0 x78) eqn:E; [apply Byte.byte_dec_bl in E; subst; simpl in Hh; congruence|].
      simpl in Hlen. destruct (Nat.ltb_spec max_bytes (S (length tl))); [lia|reflexivity]. }
    unfold compress in *. destruct mode as [|q| | |q]; cbn zeta in *.
    - simpl. rewrite HZ. reflexivity.
    - exfalso. exact (proj1 (Hm q) eq_refl).
    - simpl. exact (HN (Hraw eq_refl)).
    - destruct (Nat.ltb _ _); simpl in *; [rewrite HZ; reflexivity|exact (HN (Hraw eq_refl))].
    - exfalso. exact (proj2 (Hm q) eq_refl).
  Qed.
End CompressProps.

Lemma toy_zlib_codec x :
  head (toy_compress_zlib x) = Some x78
  /\ stream_fails (toy_zlib_reads (toy_compress_zlib x)) = false
  /\ stream_output (toy_zlib_reads (toy_compress_zlib x)) = x.
Proof. destruct x; repeat split. simpl. rewrite app_nil_r. reflexivity. Qed.

Lemma compress_decompress_roundtrip_witness :
  decompress toy_zlib_reads (fun _ => []) false
    (fst (compress toy_compress_zlib (fun _ _ => []) [xd2; x01] Compression.Adaptive)) 10
  = Ok ([xd2; x01], DNone).
Proof.
  refine (compress_decompress_roundtrip toy_compress_zlib (fun _ _ => []) toy_zlib_reads
            (fun _ => []) [xd2; x01] Compression.Adaptive 10 toy_zlib_codec _ _ _).
  - intros q. split; discriminate.
  - simpl. discriminate.
  - simpl. lia.
Defined.

(* ------------------------------------------------------------------ *)
(** ** The X.509 header accessors *)

Lemma first_some_None {A B} (f : A -> option B) l :
  first_some f l = None <-> forall x, In x l -> f x = None.
Proof.
  induction l as [|x l IH]; simpl.
  - split; [intros _ x []|reflexivity].
  - destruct (f x) as [y|] eqn:E.
    + split; [discriminate|]. intros H. rewrite (H x (or_introl eq_refl)) in E. discriminate.
    + rewrite IH. split.
      * intros H z [<-|Hz]; [exact E|exact (H z Hz)].
      * intros H z Hz. exact (H z (or_intror Hz)).
Qed.

Lemma first_some_Some {A B} (f : A -> option B) l y :
  first_some f l = Some y -> exists x, In x l /\ f x = Some y.
Proof.
  induction l as [|x l IH]; simpl; [discriminate|].
  destruct (f x) as [z|] eqn:E.
  - intros [= <-]. exists x. split; [left; reflexivity|exact E].
  - intros H. destruct (IH H) as (z & Hz & Hf). exists z. split; [right; exact Hz|exact Hf].
Qed.

Lemma parse_x509_certs_nonempty v l : parse_x509_certs v = Some l -> l <> [].
Proof.
  unfold parse_x509_certs. destruct v; try discriminate.
  - intros [= <-]. discriminate.
  - destruct (omap _ _) as [|c cs]; [discriminate|]. intros [= <-]. discriminate.
Qed.

Lemma is_some_None {A} (o : option A) : is_some o = false <-> o = None.
Proof. destruct o; simpl; split; congruence. Qed.

Lemma label_sel_In_cert n l entries :
  first_some (label_sel n parse_x509_certs) entries = Some l ->
  l <> [] /\ exists v, In (LInt n, v) entries /\ parse_x509_certs v = Some l.
Proof.
  intros H. destruct (first_some_Some _ _ _ H) as ([lab v] & Hin & Hs).
  unfold label_sel in Hs; simpl in Hs. destruct lab as [i|s]; [|discriminate].
  destruct (Z.eqb_spec i n) as [->|_]; [|discriminate].
  split; [exact (parse_x509_certs_nonempty _ _ Hs)|]. exists v. split; assumption.
Qed.

(** X17 — a certificate list in the headers [get_x509_headers] returns is
    never empty and is the parse of an entry under its label; the headers
    have no certificates exactly when no [x5bag] or [x5chain] entry parses,
    and they are empty exactly when no entry under labels 32 to 35
    parses. *)
Theorem get_x509_headers_certificates protected unprotected :
  let entries := Header.rest protected ++ Header.rest unprotected in
  let h := get_x509_headers protected unprotected in
  (forall l, x5bag h = Some l ->
     l <> [] /\ exists v, In (LInt 32, v) entries /\ parse_x509_certs v = Some l)
  /\ (forall l, x5chain h = Some l ->
     l <> [] /\ exists v, In (LInt 33, v) entries /\ parse_x509_certs v = Some l)
  /\ (has_certificates h = false <->
      forall n v, In (LInt n, v) entries -> (n = 32 \/ n = 33) -> parse_x509_certs v = None)
  /\ (x509_is_empty h = true <->
      forall e, In e entries ->
        label_sel 32 parse_x509_certs e = None /\ label_sel 33 parse_x509_certs e = None
        /\ label_sel 34 parse_cert_hash e = None /\ label_sel 35 uri_of e = None).
Proof.
  intros entries h. unfold h, get_x509_headers. fold entries.
  destruct (x509_fold_fields entries X509Headers_default) as (Hb & Hc & Ht & Hu).
  simpl in Hb, Hc, Ht, Hu.
  assert (Hsel : forall n (f : Value -> option (list bytes)),
             (forall e, In e entries -> label_sel n f e = None)
             <-> (forall m v, In (LInt m, v) entries -> m = n -> f v = None)).
  { intros n f. split.
    - intros H m v Hin ->. specialize (H _ Hin). unfold label_sel in H; simpl in H.
      rewrite Z.eqb_refl in H. exact H.
    - intros H [lab v] Hin. unfold label_sel; simpl. destruct lab as [i|s]; [|reflexivity].
      destruct (Z.eqb_spec i n) as [->|_]; [exact (H n v Hin eq_refl)|reflexivity]. }
  refine (conj _ (conj _ (conj _ _))).
  - intros l Hl. rewrite Hb in Hl. exact (label_sel_In_cert _ _ _ Hl).
  - intros l Hl. rewrite Hc in Hl. exact (label_sel_In_cert _ _ _ Hl).
  - unfold has_certificates. rewrite orb_false_iff, !is_some_None, Hb, Hc, !first_some_None.
    rewrite !Hsel. split.
    + intros [H1 H2] n v Hin [->| ->]; [exact (H1 _ _ Hin eq_refl)|exact (H2 _ _ Hin eq_refl)].
    + intros H. split; intros m v Hin ->; apply (H _ _ Hin); [left|right]; reflexivity.
  - unfold x509_is_empty. rewrite !andb_true_iff, !negb_true_iff, !is_some_None, Hb, Hc, Ht, Hu,
      !first_some_None. split.
    + intros (((H1 & H2) & H3) & H4) e Hin.
      exact (conj (H1 e Hin) (conj (H2 e Hin) (conj (H3 e Hin) (H4 e Hin)))).
    + intros H. refine (conj (conj (conj _ _) _) _); intros e Hin; apply H, Hin.
Qed.
